(** * gigvault/ra: the enrollment lifecycle of the Registration Authority

    A shallow embedding of the Go packages [models], [storage], [service],
    [grpc] and [api] of the repository, and the properties of the
    enrollment lifecycle proved over it.

    Modelling conventions.
    - A Go [error] is a value of [error]; [fmt.Errorf] with and without
      the [%w] verb are its two constructors of the repository's own.
    - A Go function returning [(T, error)] is a computation [M T]: a
      function from the state of the world to a result and a new world.
    - The world holds what lives outside the process: the rows of the
      [enrollments] table and its id sequence, the wall clock, the answers
      of the connection pool and of the CA service, and the trace of the
      calls that left the process.
    - [ctx] is not modelled as a value: cancellation and deadlines show up
      as a refused statement or a failed RPC. *)

From Stdlib Require Import String Ascii List NArith ZArith Lia.
From stdpp Require Import base list strings sorting pretty.

Local Open Scope string_scope.
Local Open Scope N_scope.

(** ** Errors *)

(** [ErrNoRows] is [pgx.ErrNoRows]; [ErrOutside] is any other error value
    made outside this repository (driver, gRPC stub, CSR parser). *)
Inductive error : Type :=
| ErrNoRows
| ErrOutside (msg : string)
| Errorf (msg : string)
| Errorf_w (prefix : string) (err : error).

Fixpoint Error (e : error) : string :=
  match e with
  | ErrNoRows => "no rows in result set"
  | ErrOutside msg => msg
  | Errorf msg => msg
  | Errorf_w prefix err => prefix +:+ Error err
  end.

Inductive result (A : Type) : Type :=
| Ok (a : A)
| Err (e : error).
Arguments Ok {A} a.
Arguments Err {A} e.

(** ** package models *)

Abbreviation Time := N.

Module models.
Record Enrollment : Type := mkEnrollment {
  ID : string;
  CommonName : string;
  Organization : string;
  Email : string;
  CSR : string;
  Status : string;
  ApprovedBy : option string;
  RejectedBy : option string;
  RejectReason : option string;
  CreatedAt : Time;
  UpdatedAt : Time
}.
End models.
Export models.

(** ** The world outside the process *)

Module x509.
Record Name : Type := mkName { CommonName : string }.
Record CertificateRequest : Type := mkCertificateRequest { Subject : Name }.
End x509.

Module capb.
Record SignCSRRequest : Type := mkSignCSRRequest {
  CsrPem : string;
  ValidityDays : Z;
  Profile : string
}.
(** The fields of the three response messages the client reads. *)
Record Response : Type := mkResponse {
  CertificatePem : string;
  SerialNumber : string
}.
End capb.

(** The SQL statements of package storage, as the pool sees them. *)
Inductive Stmt : Type :=
| InsertEnrollment
| SelectByID (id : string)
| SelectList (status : string)
| UpdateByID (id : string).

Inductive Rpc : Type :=
| RpcSignCSR (req : capb.SignCSRRequest)
| RpcGetCertificate (serial : string)
| RpcRevokeCertificate (serial reason : string).

Inductive Event : Type :=
| EvLog (msg : string)
| EvSQL (s : Stmt)
| EvCA (r : Rpc).

(** How the rows of one query come back.  [FetchAll]: every row.
    [FetchBreaks n]: the stream breaks after [n] rows, [rows.Next()]
    answers false and the error stays in [rows.Err()].  [ScanFails n err]:
    [rows.Scan] of the row of index [n] fails with [err]. *)
Inductive Fetch : Type :=
| FetchAll
| FetchBreaks (n : nat)
| ScanFails (n : nat) (err : error).

(** [pool] scripts the connection pool: one entry per statement, [None]
    when the statement is served and [Some e] when it is refused with [e]
    (no connection, cancelled context, a column constraint of the
    migration); an exhausted script serves. [ca] scripts the CA service
    in the same way, with the response of an RPC that succeeds; an
    exhausted script is an unavailable CA.  [ticks]
    are the amounts by which the clock moves before each reading: the
    clock never runs backwards.  [burns] tells, for each INSERT that is
    refused, whether it had drawn a value of the sequence before it
    failed: such a value is not given back.  [fetches] tells, for each
    query of a list that is served, how its rows come back; an exhausted
    script fetches every row.  [trace] has the latest event first. *)
Record World : Type := mkWorld {
  rows : list Enrollment;
  id_seq : N;
  clock : Time;
  ticks : list N;
  pool : list (option error);
  ca : list (result capb.Response);
  burns : list bool;
  fetches : list Fetch;
  trace : list Event
}.

Definition set_table (rs : list Enrollment) (n : N) (w : World) : World :=
  mkWorld rs n (clock w) (ticks w) (pool w) (ca w) (burns w) (fetches w) (trace w).
Definition set_clock (t : Time) (ts : list N) (w : World) : World :=
  mkWorld (rows w) (id_seq w) t ts (pool w) (ca w) (burns w) (fetches w) (trace w).
Definition set_pool (p : list (option error)) (w : World) : World :=
  mkWorld (rows w) (id_seq w) (clock w) (ticks w) p (ca w) (burns w) (fetches w)
          (trace w).
Definition set_ca (c : list (result capb.Response)) (w : World) : World :=
  mkWorld (rows w) (id_seq w) (clock w) (ticks w) (pool w) c (burns w) (fetches w)
          (trace w).
Definition set_fetches (f : list Fetch) (w : World) : World :=
  mkWorld (rows w) (id_seq w) (clock w) (ticks w) (pool w) (ca w) (burns w) f
          (trace w).
Definition emit (ev : Event) (w : World) : World :=
  mkWorld (rows w) (id_seq w) (clock w) (ticks w) (pool w) (ca w) (burns w)
          (fetches w) (ev :: trace w).

(** What a refused statement leaves behind: an INSERT may have drawn a
    value of the sequence. *)
Definition drawn (s : Stmt) (w : World) : World :=
  match s with
  | InsertEnrollment =>
      mkWorld (rows w) (if hd false (burns w) then N.succ (id_seq w) else id_seq w)
              (clock w) (ticks w) (pool w) (ca w) (tl (burns w)) (fetches w)
              (trace w)
  | _ => w
  end.

(** ** The monad of fallible computations over the world *)

Definition M (A : Type) : Type := World -> result A * World.

Definition ret {A} (a : A) : M A := fun w => (Ok a, w).
Definition fail {A} (e : error) : M A := fun w => (Err e, w).
Definition bind {A B} (m : M A) (k : A -> M B) : M B :=
  fun w => match m w with
           | (Ok a, w') => k a w'
           | (Err e, w') => (Err e, w')
           end.

(** [if err != nil { return fmt.Errorf("prefix: %w", err) }] *)
Definition wrapping {A} (prefix : string) (m : M A) : M A :=
  fun w => match m w with
           | (Ok a, w') => (Ok a, w')
           | (Err e, w') => (Err (Errorf_w prefix e), w')
           end.

Notation "x <- m ;; k" := (bind m (fun x => k))
  (at level 90, m at level 89, right associativity, only parsing).
Notation "m ;;; k" := (bind m (fun _ => k))
  (at level 90, right associativity, only parsing).

Definition logger_Info (msg : string) : M unit :=
  fun w => (Ok tt, emit (EvLog msg) w).

Definition time_Now : M Time :=
  fun w => let t := clock w + hd 0 (ticks w) in
           (Ok t, set_clock t (tl (ticks w)) w).

(** One statement sent to the pool. *)
Definition db_send (s : Stmt) : M unit :=
  fun w => let w' := set_pool (tl (pool w)) (emit (EvSQL s) w) in
           match hd None (pool w) with
           | None => (Ok tt, w')
           | Some e => (Err e, drawn s w')
           end.

(** The rows of a served query, read by the loop
    [for rows.Next() { rows.Scan(...); append }]: the loop ends when
    [rows.Next()] answers false, at the end of the rows or where the
    stream breaks, and returns where a scan fails. *)
Fixpoint read_rows (f : Fetch) (page : list Enrollment)
  : result (list Enrollment) :=
  match page with
  | [] => Ok []
  | r :: rest =>
      match f with
      | FetchBreaks O => Ok []
      | ScanFails O err => Err (Errorf_w "failed to scan enrollment: " err)
      | _ =>
          let f' := match f with
                    | FetchAll => FetchAll
                    | FetchBreaks n => FetchBreaks (Nat.pred n)
                    | ScanFails n err => ScanFails (Nat.pred n) err
                    end in
          match read_rows f' rest with
          | Ok l => Ok (r :: l)
          | Err e => Err e
          end
      end
  end.

(** The rows of the next served query of a list. *)
Definition rows_of (page : list Enrollment) : M (list Enrollment) :=
  fun w => (read_rows (hd FetchAll (fetches w)) page,
            set_fetches (tl (fetches w)) w).

(** One RPC sent to the CA service. *)
Definition ca_call (r : Rpc) : M capb.Response :=
  fun w => (hd (Err (ErrOutside "rpc error: code = Unavailable")) (ca w),
            set_ca (tl (ca w)) (emit (EvCA r) w)).

(** ** package storage *)

Module storage.

(** [ORDER BY created_at DESC]: [a] may come before [b]. *)
Definition created_desc (a b : Enrollment) : Prop := CreatedAt b <= CreatedAt a.

#[global] Instance created_desc_dec a b : Decision (created_desc a b).
Proof. unfold created_desc. apply _. Defined.

(** [LIMIT 100] *)
Definition page_size : nat := 100.

(** The row an INSERT makes: the seven columns of the statement, the id
    drawn from the sequence, the other columns NULL. *)
Definition inserted_row (id : string) (e : Enrollment) : Enrollment :=
  mkEnrollment id (CommonName e) (Organization e) (Email e) (CSR e)
               (Status e) None None None (CreatedAt e) (UpdatedAt e).

(** [Scan(&enrollment.ID)] *)
Definition with_ID (id : string) (e : Enrollment) : Enrollment :=
  mkEnrollment id (CommonName e) (Organization e) (Email e) (CSR e)
               (Status e) (ApprovedBy e) (RejectedBy e) (RejectReason e)
               (CreatedAt e) (UpdatedAt e).

(** [SET status, approved_by, rejected_by, reject_reason, updated_at] *)
Definition updated_row (e r : Enrollment) : Enrollment :=
  mkEnrollment (ID r) (CommonName r) (Organization r) (Email r) (CSR r)
               (Status e) (ApprovedBy e) (RejectedBy e) (RejectReason e)
               (CreatedAt r) (UpdatedAt e).

(** [UPDATE enrollments SET ... WHERE id = $6] *)
Definition update_rows (e : Enrollment) (rs : list Enrollment) : list Enrollment :=
  map (fun r => if (ID r =? ID e)%string then updated_row e r else r) rs.

(** [SELECT ... WHERE id = $1] *)
Definition select_by_id (id : string) (rs : list Enrollment) : option Enrollment :=
  List.find (fun r => (ID r =? id)%string) rs.

(** [WHERE status = $1], which only the query for a non-empty filter has. *)
Definition where_status (status : string) (rs : list Enrollment) : list Enrollment :=
  if (status =? "")%string then rs
  else List.filter (fun r => (Status r =? status)%string) rs.

(** The two queries of [List]: [ORDER BY created_at DESC LIMIT 100]. *)
Definition select_list (status : string) (rs : list Enrollment) : list Enrollment :=
  take page_size (merge_sort created_desc (where_status status rs)).

(** [id SERIAL]: the id is the next value of the sequence, scanned into
    the string field in decimal. *)
Definition Create (enrollment : Enrollment) : M Enrollment :=
  wrapping "failed to create enrollment: "
    (db_send InsertEnrollment ;;;
     fun w =>
       let n := N.succ (id_seq w) in
       let id := pretty n in
       (Ok (with_ID id enrollment),
        set_table (rows w ++ [inserted_row id enrollment]) n w)).

Definition GetByID (id : string) : M Enrollment :=
  wrapping "failed to get enrollment: "
    (db_send (SelectByID id) ;;;
     fun w =>
       match select_by_id id (rows w) with
       | Some enrollment => (Ok enrollment, w)
       | None => (Err ErrNoRows, w)
       end).

Definition List (status : string) : M (list Enrollment) :=
  wrapping "failed to list enrollments: " (db_send (SelectList status)) ;;;
  fun w => rows_of (select_list status (rows w)) w.

Definition Update (enrollment : Enrollment) : M unit :=
  wrapping "failed to update enrollment: "
    (db_send (UpdateByID (ID enrollment)) ;;;
     fun w => (Ok tt, set_table (update_rows enrollment (rows w)) (id_seq w) w)).

End storage.

(** ** package service *)

Module service.

Definition with_approval (approvedBy : string) (now : Time) (e : Enrollment)
  : Enrollment :=
  mkEnrollment (ID e) (CommonName e) (Organization e) (Email e) (CSR e)
               "approved" (Some approvedBy) (RejectedBy e) (RejectReason e)
               (CreatedAt e) now.

Definition with_rejection (rejectedBy reason : string) (now : Time)
  (e : Enrollment) : Enrollment :=
  mkEnrollment (ID e) (CommonName e) (Organization e) (Email e) (CSR e)
               "rejected" (ApprovedBy e) (Some rejectedBy) (Some reason)
               (CreatedAt e) now.

Section RAService.

(** [crypto.ParseCSR] of github.com/gigvault/shared, a pure function. *)
Variable ParseCSR : string -> result x509.CertificateRequest.

Definition CreateEnrollment (cn org email csrPEM : string) : M Enrollment :=
  csr <- wrapping "invalid CSR: " (fun w => (ParseCSR csrPEM, w)) ;;
  logger_Info "Creating enrollment" ;;;
  if negb (x509.CommonName (x509.Subject csr) =? cn)%string then
    fail (Errorf "CSR common name does not match provided common name")
  else
    createdAt <- time_Now ;;
    updatedAt <- time_Now ;;
    let enrollment :=
      mkEnrollment "" cn org email csrPEM "pending" None None None
                   createdAt updatedAt in
    wrapping "failed to create enrollment: " (storage.Create enrollment).

End RAService.

Definition ListEnrollments (status : string) : M (list Enrollment) :=
  storage.List status.

Definition GetEnrollment (id : string) : M Enrollment :=
  storage.GetByID id.

Definition ApproveEnrollment (id approvedBy : string) : M unit :=
  enrollment <- wrapping "enrollment not found: " (storage.GetByID id) ;;
  if negb (Status enrollment =? "pending")%string then
    fail (Errorf "enrollment is not in pending status")
  else
    logger_Info "Approving enrollment" ;;;
    now <- time_Now ;;
    wrapping "failed to update enrollment: "
      (storage.Update (with_approval approvedBy now enrollment)) ;;;
    logger_Info "Enrollment queued for CA signing" ;;;
    ret tt.

Definition RejectEnrollment (id rejectedBy reason : string) : M unit :=
  enrollment <- wrapping "enrollment not found: " (storage.GetByID id) ;;
  if negb (Status enrollment =? "pending")%string then
    fail (Errorf "enrollment is not in pending status")
  else
    logger_Info "Rejecting enrollment" ;;;
    now <- time_Now ;;
    wrapping "failed to update enrollment: "
      (storage.Update (with_rejection rejectedBy reason now enrollment)) ;;;
    ret tt.

End service.

(** ** package grpc: the CA client

    The client that calls the generated stub [capb.NewCAServiceClient];
    it replaced one whose three methods returned an error without
    calling anything. *)

Module grpc.

(** Go's conversion [int32(validityDays)]: the low 32 bits, signed. *)
Definition int32 (z : Z) : Z :=
  ((z + 2147483648) mod 4294967296 - 2147483648)%Z.

Definition SignCSR (csrPEM : string) (validityDays : Z) : M string :=
  logger_Info "Signing CSR via CA service" ;;;
  let req := capb.mkSignCSRRequest csrPEM (int32 validityDays) "server" in
  resp <- wrapping "failed to sign CSR: " (ca_call (RpcSignCSR req)) ;;
  logger_Info "CSR signed successfully" ;;;
  ret (capb.CertificatePem resp).

Definition GetCertificate (serial : string) : M string :=
  resp <- wrapping "failed to get certificate: "
            (ca_call (RpcGetCertificate serial)) ;;
  ret (capb.CertificatePem resp).

Definition RevokeCertificate (serial reason : string) : M unit :=
  wrapping "failed to revoke certificate: "
    (ca_call (RpcRevokeCertificate serial reason)) ;;;
  logger_Info "Certificate revoked successfully" ;;;
  ret tt.

End grpc.

(** ** The error kinds of the lifecycle, as the code signals them *)

Definition InvalidCSR (cause : error) : error :=
  Errorf_w "invalid CSR: " cause.
Definition IdentityMismatch : error :=
  Errorf "CSR common name does not match provided common name".
Definition NotFound (cause : error) : error :=
  Errorf_w "enrollment not found: " cause.
Definition InvalidTransition : error :=
  Errorf "enrollment is not in pending status".

(** The caller of approve and reject sees [NotFound] when the error it gets
    carries the text of that kind. *)
Definition reported_NotFound (e : error) : bool :=
  match e with
  | Errorf_w prefix _ => (prefix =? "enrollment not found: ")%string
  | _ => false
  end.

(** ** The atomic steps of a transition

    A transition talks to the store twice: it reads the row and checks it,
    then writes it.  Each of the two is one statement for the store, and
    requests are served by goroutines of their own, so the steps of two
    transitions can alternate. *)

Module steps.

(** Lines 249-256 and 286-293: read the row, refuse it unless pending. *)
Definition check_pending (id : string) : M Enrollment :=
  enrollment <- wrapping "enrollment not found: " (storage.GetByID id) ;;
  if negb (Status enrollment =? "pending")%string then
    fail (Errorf "enrollment is not in pending status")
  else ret enrollment.

(** Lines 258-281. *)
Definition commit_approval (approvedBy : string) (enrollment : Enrollment)
  : M unit :=
  logger_Info "Approving enrollment" ;;;
  now <- time_Now ;;
  wrapping "failed to update enrollment: "
    (storage.Update (service.with_approval approvedBy now enrollment)) ;;;
  logger_Info "Enrollment queued for CA signing" ;;;
  ret tt.

(** Lines 295-310. *)
Definition commit_rejection (rejectedBy reason : string)
  (enrollment : Enrollment) : M unit :=
  logger_Info "Rejecting enrollment" ;;;
  now <- time_Now ;;
  wrapping "failed to update enrollment: "
    (storage.Update (service.with_rejection rejectedBy reason now enrollment)) ;;;
  ret tt.

(** The decision of an operator on one enrollment. *)
Inductive Verdict : Type :=
| Approve (approvedBy : string)
| Reject (rejectedBy reason : string).

Definition transition (id : string) (v : Verdict) : M unit :=
  match v with
  | Approve approvedBy => service.ApproveEnrollment id approvedBy
  | Reject rejectedBy reason => service.RejectEnrollment id rejectedBy reason
  end.

Definition commit (v : Verdict) (enrollment : Enrollment) : M unit :=
  match v with
  | Approve approvedBy => commit_approval approvedBy enrollment
  | Reject rejectedBy reason => commit_rejection rejectedBy reason enrollment
  end.

(** One transition, step by step. *)
Definition stepwise (id : string) (v : Verdict) : M unit :=
  seen <- check_pending id ;;
  commit v seen.

(** Two transitions of the same id whose reads both come before either
    write.  It returns without an error only if both transitions do. *)
Definition interleaved (id : string) (v1 v2 : Verdict) : M unit :=
  seen1 <- check_pending id ;;
  seen2 <- check_pending id ;;
  commit v1 seen1 ;;;
  commit v2 seen2.


End steps.

(** ** Histories of the service *)

Inductive Call : Type :=
| CallCreateEnrollment (cn org email csrPEM : string)
| CallListEnrollments (status : string)
| CallGetEnrollment (id : string)
| CallApproveEnrollment (id approvedBy : string)
| CallRejectEnrollment (id rejectedBy reason : string)
| CallSignCSR (csrPEM : string) (validityDays : Z)
| CallGetCertificate (serial : string)
| CallRevokeCertificate (serial reason : string).

Section Histories.

Variable ParseCSR : string -> result x509.CertificateRequest.

(** The world after one call of a public operation. *)
Definition exec (c : Call) (w : World) : World :=
  match c with
  | CallCreateEnrollment cn org email csrPEM =>
      snd (service.CreateEnrollment ParseCSR cn org email csrPEM w)
  | CallListEnrollments status => snd (service.ListEnrollments status w)
  | CallGetEnrollment id => snd (service.GetEnrollment id w)
  | CallApproveEnrollment id approvedBy =>
      snd (service.ApproveEnrollment id approvedBy w)
  | CallRejectEnrollment id rejectedBy reason =>
      snd (service.RejectEnrollment id rejectedBy reason w)
  | CallSignCSR csrPEM validityDays => snd (grpc.SignCSR csrPEM validityDays w)
  | CallGetCertificate serial => snd (grpc.GetCertificate serial w)
  | CallRevokeCertificate serial reason =>
      snd (grpc.RevokeCertificate serial reason w)
  end.

Definition run (cs : list Call) (w : World) : World :=
  fold_left (fun w c => exec c w) cs w.

(** The migration has just run: the table is empty and the sequence has
    given no id.  Clock and scripts are arbitrary. *)
Definition initial (w : World) : Prop := rows w = [] /\ id_seq w = 0.

Inductive reachable : World -> Prop :=
| reachable_initial w : initial w -> reachable w
| reachable_exec w c : reachable w -> reachable (exec c w).

End Histories.

(** ** The invariants of a row *)

Definition written_status (s : string) : Prop :=
  s = "pending" \/ s = "approved" \/ s = "rejected".

Definition approved_branch (s : string) : Prop :=
  s = "approved" \/ s = "issued" \/ s = "issuance_failed".

(** A field of type [*string] is non-empty, in the sense of its
    [omitempty] tag, when the pointer is not nil. *)
Definition non_empty (field : option string) : Prop := is_Some field.

Definition actors_consistent (r : Enrollment) : Prop :=
  (non_empty (ApprovedBy r) <-> approved_branch (Status r)) /\
  (non_empty (RejectedBy r) <-> Status r = "rejected") /\
  (non_empty (RejectReason r) <-> Status r = "rejected").

Definition stamps_consistent (now : Time) (r : Enrollment) : Prop :=
  CreatedAt r <= UpdatedAt r /\ UpdatedAt r <= now.

(** ** The worlds an operation leaves, and what it does to the table *)

(** The answer of the CA service to the next RPC. *)
Definition next_reply (w : World) : result capb.Response :=
  hd (Err (ErrOutside "rpc error: code = Unavailable")) (ca w).

(** The world once statement [s] has gone to the pool. *)
Definition after_send (s : Stmt) (w : World) : World :=
  set_pool (tl (pool w)) (emit (EvSQL s) w).

(** The world once the clock has been read. *)
Definition after_Now (w : World) : World :=
  set_clock (clock w + hd 0 (ticks w)) (tl (ticks w)) w.

(** The world once RPC [r] has gone to the CA service. *)
Definition after_call (r : Rpc) (w : World) : World :=
  set_ca (tl (ca w)) (emit (EvCA r) w).

Definition served (w : World) : Prop := hd None (pool w) = None.

(** The record a verdict writes, from the record it read. *)
Definition decided (v : steps.Verdict) (now : Time) (r : Enrollment) : Enrollment :=
  match v with
  | steps.Approve approvedBy => service.with_approval approvedBy now r
  | steps.Reject rejectedBy reason => service.with_rejection rejectedBy reason now r
  end.

Definition verdict_status (v : steps.Verdict) : string :=
  match v with
  | steps.Approve _ => "approved"
  | steps.Reject _ _ => "rejected"
  end.

Definition verdict_log (v : steps.Verdict) : list Event :=
  match v with
  | steps.Approve _ =>
      [EvLog "Enrollment queued for CA signing"]
  | steps.Reject _ _ => []
  end.

Definition verdict_announce (v : steps.Verdict) : Event :=
  match v with
  | steps.Approve _ => EvLog "Approving enrollment"
  | steps.Reject _ _ => EvLog "Rejecting enrollment"
  end.

Definition row_ok (now : Time) (r : Enrollment) : Prop :=
  written_status (Status r) /\ actors_consistent r /\ stamps_consistent now r.

Definition table_ok (w : World) : Prop := Forall (row_ok (clock w)) (rows w).

(** What one operation does to the table: nothing (a refused insert may
    have drawn a value of the sequence), or the insert of one pending row
    with a new id, or the update of the rows of one id from a pending row
    it has read. *)
Inductive table_effect (w w' : World) : Prop :=
| effect_none :
    rows w' = rows w -> id_seq w <= id_seq w' -> clock w <= clock w' ->
    table_effect w w'
| effect_insert (e : Enrollment) :
    rows w' = (rows w ++ [e])%list ->
    id_seq w' = N.succ (id_seq w) -> ID e = pretty (N.succ (id_seq w)) ->
    Status e = "pending" ->
    ApprovedBy e = None -> RejectedBy e = None -> RejectReason e = None ->
    CreatedAt e <= UpdatedAt e -> UpdatedAt e <= clock w' ->
    clock w <= clock w' ->
    table_effect w w'
| effect_update (v : steps.Verdict) (seen : Enrollment) :
    In seen (rows w) -> Status seen = "pending" ->
    rows w' = storage.update_rows (decided v (clock w') seen) (rows w) ->
    id_seq w' = id_seq w -> clock w <= clock w' ->
    table_effect w w'.

(** Every id of the table was drawn from the sequence, and none twice. *)
Definition ids_ok (w : World) : Prop :=
  Forall (fun r => exists k, 1 <= k <= id_seq w /\ ID r = pretty k) (rows w) /\
  NoDup (map ID (rows w)).

(** ** package grpc: setting up the CA client

    [NewCAClient] and [Close] of ca_client.go.  The files, the X.509
    parsers and the dialer are outside the repository: they are the
    variables of the section. *)

Module dial.

Record CAClientConfig : Type := mkCAClientConfig {
  Address : string;
  TLSEnabled : bool;
  CACertPath : string;
  CertPath : string;
  KeyPath : string
}.

(** [tls.VersionTLS13] *)
Definition VersionTLS13 : N := 772.

Section NewCAClient.

(** [tls.Certificate] and [*grpc.ClientConn]. *)
Variables Certificate ClientConn : Type.

(** A [tls.Config]; [RootCAs] is the list of the PEM blocks added to the
    pool. *)
Record TLSConfig : Type := mkTLSConfig {
  Certificates : list Certificate;
  RootCAs : list string;
  MinVersion : N
}.

Inductive DialOption : Type :=
| WithTransportCredentials (cfg : TLSConfig)
| WithInsecure
| WithTimeout (seconds : N).

Record CAClient : Type := mkCAClient { conn : option ClientConn }.

(** [os.ReadFile], [CertPool.AppendCertsFromPEM] of crypto/x509,
    [tls.LoadX509KeyPair], [grpc.Dial] and [ClientConn.Close]. *)
Variable ReadFile : string -> result string.
Variable AppendCertsFromPEM : string -> bool.
Variable LoadX509KeyPair : string -> string -> result Certificate.
Variable Dial : string -> list DialOption -> result ClientConn.
Variable conn_Close : ClientConn -> option error.

(** The options of the first branch of [NewCAClient]. *)
Definition tls_options (cfg : CAClientConfig) : result (list DialOption) :=
  match ReadFile (CACertPath cfg) with
  | Err err => Err (Errorf_w "failed to read CA certificate: " err)
  | Ok caCert =>
      if negb (AppendCertsFromPEM caCert) then
        Err (Errorf "failed to add CA certificate to pool")
      else
        match LoadX509KeyPair (CertPath cfg) (KeyPath cfg) with
        | Err err => Err (Errorf_w "failed to load client certificate: " err)
        | Ok clientCert =>
            let tlsConfig := mkTLSConfig [clientCert] [caCert] VersionTLS13 in
            Ok [WithTransportCredentials tlsConfig]
        end
  end.

Definition NewCAClient (cfg : CAClientConfig) : M CAClient :=
  opts <- (fun w => (if TLSEnabled cfg then tls_options cfg
                     else Ok [WithInsecure], w)) ;;
  let opts := (opts ++ [WithTimeout 30])%list in
  conn <- wrapping "failed to connect to CA service: "
            (fun w => (Dial (Address cfg) opts, w)) ;;
  logger_Info "Connected to CA service" ;;;
  ret (mkCAClient (Some conn)).

Definition Close (c : CAClient) : option error :=
  match conn c with
  | Some cn => conn_Close cn
  | None => None
  end.

End NewCAClient.

End dial.

(** ** package api: the HTTP handlers *)

Module api.

(** What [encoding/json] writes. *)
#[warnings="-register-all"] Inductive JSON : Type :=
| JNull
| JString (s : string)
| JTime (t : N)
| JArray (items : list JSON)
| JObject (members : list (string * JSON)).

(** A field tagged [omitempty]: the member is left out for a nil pointer. *)
Definition omitempty (key : string) (field : option string)
  : list (string * JSON) :=
  match field with
  | Some s => [(key, JString s)]
  | None => []
  end.

(** The encoding of [models.Enrollment] by its struct tags. *)
Definition encode_Enrollment (e : Enrollment) : JSON :=
  JObject ([("id", JString (ID e));
            ("common_name", JString (CommonName e));
            ("organization", JString (Organization e));
            ("email", JString (Email e));
            ("csr", JString (CSR e));
            ("status", JString (Status e))]
           ++ omitempty "approved_by" (ApprovedBy e)
           ++ omitempty "rejected_by" (RejectedBy e)
           ++ omitempty "reject_reason" (RejectReason e)
           ++ [("created_at", JTime (CreatedAt e));
               ("updated_at", JTime (UpdatedAt e))])%list.

(** The encoding of [[]*models.Enrollment]: [List] returns the nil slice
    when no row matches, and a nil slice is written [null]. *)
Definition encode_Enrollments (l : list Enrollment) : JSON :=
  match l with
  | [] => JNull
  | _ => JArray (map encode_Enrollment l)
  end.

(** [map[string]string{"status": s}] *)
Definition encode_status (s : string) : JSON :=
  JObject [("status", JString s)].

Inductive ResponseBody : Type :=
| NoBody
| Line (msg : string)
| Json (j : JSON).

(** What a handler has written to its [http.ResponseWriter]. *)
Record Response : Type := mkResponse {
  StatusCode : N;
  ContentType : option string;
  Body : ResponseBody
}.

(** [http.Error(w, msg, code)] *)
Definition http_Error (msg : string) (code : N) : Response :=
  mkResponse code (Some "text/plain; charset=utf-8") (Line msg).

(** A JSON answer: the header is set, then the status, then the value is
    encoded. *)
Definition json_response (code : N) (j : JSON) : Response :=
  mkResponse code (Some "application/json") (Json j).

(** An [*http.Request] as the handlers read it.  [Path] is the URL path
    cut at its slashes; [Query] is [r.URL.Query().Get]; [Fields] is the
    outcome of decoding the body into the struct of the handler: an error,
    or the string decoded for each key, empty for a key the body lacks. *)
Record Request : Type := mkRequest {
  Method : string;
  Path : list string;
  RemoteAddr : string;
  Query : string -> string;
  Fields : result (string -> string)
}.

(** [h.logger.Error]; the trace keeps the message of a log line. *)
Definition logger_Error (msg : string) (w : World) : World :=
  emit (EvLog msg) w.

Definition Handled : Type := World -> Response * World.

Definition Health : Handled :=
  fun w => (json_response 200 (encode_status "healthy"), w).

Definition Ready : Handled :=
  fun w => (json_response 200 (encode_status "ready"), w).

Section HTTPHandler.

Variable ParseCSR : string -> result x509.CertificateRequest.

Definition CreateEnrollment (r : Request) : Handled :=
  fun w =>
    match Fields r with
    | Err _ => (http_Error "Invalid request" 400, w)
    | Ok req =>
        match service.CreateEnrollment ParseCSR (req "common_name")
                (req "organization") (req "email") (req "csr") w with
        | (Err _, w') =>
            (http_Error "Failed to create enrollment" 500,
             logger_Error "Failed to create enrollment" w')
        | (Ok enrollment, w') =>
            (json_response 201 (encode_Enrollment enrollment), w')
        end
    end.

Definition ListEnrollments (r : Request) : Handled :=
  fun w =>
    let status := Query r "status" in
    match service.ListEnrollments status w with
    | (Err _, w') =>
        (http_Error "Internal server error" 500,
         logger_Error "Failed to list enrollments" w')
    | (Ok enrollments, w') =>
        (json_response 200 (encode_Enrollments enrollments), w')
    end.

Definition GetEnrollment (id : string) : Handled :=
  fun w =>
    match service.GetEnrollment id w with
    | (Err _, w') =>
        (http_Error "Enrollment not found" 404,
         logger_Error "Failed to get enrollment" w')
    | (Ok enrollment, w') =>
        (json_response 200 (encode_Enrollment enrollment), w')
    end.

Definition ApproveEnrollment (id : string) (r : Request) : Handled :=
  fun w =>
    match Fields r with
    | Err _ => (http_Error "Invalid request" 400, w)
    | Ok req =>
        match service.ApproveEnrollment id (req "approved_by") w with
        | (Err _, w') =>
            (http_Error "Failed to approve enrollment" 500,
             logger_Error "Failed to approve enrollment" w')
        | (Ok _, w') => (mkResponse 204 None NoBody, w')
        end
    end.

Definition RejectEnrollment (id : string) (r : Request) : Handled :=
  fun w =>
    match Fields r with
    | Err _ => (http_Error "Invalid request" 400, w)
    | Ok req =>
        match service.RejectEnrollment id (req "rejected_by") (req "reason") w with
        | (Err _, w') =>
            (http_Error "Failed to reject enrollment" 500,
             logger_Error "Failed to reject enrollment" w')
        | (Ok _, w') => (mkResponse 204 None NoBody, w')
        end
    end.

(** The routes of [Routes], in the order of their registration. *)
Inductive Route : Type :=
| RouteHealth
| RouteReady
| RouteCreateEnrollment
| RouteListEnrollments
| RouteGetEnrollment (id : string)
| RouteApproveEnrollment (id : string)
| RouteRejectEnrollment (id : string).

(** The variable [{id}] of a path template stands for one segment that is
    not empty. *)
Definition is_var (segment : string) : bool := negb (segment =? "")%string.

(** The route of the table that a method and a path match, if any. *)
Definition match_route (method : string) (path : list string) : option Route :=
  match path with
  | [a] =>
      if ((a =? "health") && (method =? "GET"))%string then Some RouteHealth
      else if ((a =? "ready") && (method =? "GET"))%string then Some RouteReady
      else None
  | a :: b :: c :: rest =>
      if ((a =? "api") && (b =? "v1") && (c =? "enrollments"))%string then
        match rest with
        | [] =>
            if (method =? "POST")%string then Some RouteCreateEnrollment
            else if (method =? "GET")%string then Some RouteListEnrollments
            else None
        | [id] =>
            if (is_var id && (method =? "GET")%string)%bool
            then Some (RouteGetEnrollment id) else None
        | [id; verb] =>
            if (is_var id && (verb =? "approve") && (method =? "POST"))%string
            then Some (RouteApproveEnrollment id)
            else if (is_var id && (verb =? "reject") && (method =? "POST"))%string
            then Some (RouteRejectEnrollment id)
            else None
        | _ => None
        end
      else None
  | _ => None
  end.

Definition handle (rt : Route) (r : Request) : Handled :=
  match rt with
  | RouteHealth => Health
  | RouteReady => Ready
  | RouteCreateEnrollment => CreateEnrollment r
  | RouteListEnrollments => ListEnrollments r
  | RouteGetEnrollment id => GetEnrollment id
  | RouteApproveEnrollment id => ApproveEnrollment id r
  | RouteRejectEnrollment id => RejectEnrollment id r
  end.

(** [h.loggingMiddleware(r).ServeHTTP]: the request is logged, then the
    router serves it.  [None] stands for the answer the router gives by
    itself when no route matches. *)
Definition ServeHTTP (r : Request) (w : World) : option Response * World :=
  let w1 := emit (EvLog "HTTP request") w in
  match match_route (Method r) (Path r) with
  | Some rt => let (resp, w2) := handle rt r w1 in (Some resp, w2)
  | None => (None, w1)
  end.

End HTTPHandler.

End api.

(** The members of an encoded object. *)
Definition members (j : api.JSON) : list (string * api.JSON) :=
  match j with
  | api.JObject m => m
  | _ => []
  end.

(** The encoded object has a member with this key. *)
Definition has_member (key : string) (j : api.JSON) : Prop :=
  exists v, In (key, v) (members j).

(** ** What a row keeps for life *)

(** The columns that no statement of package storage sets after the
    insert. *)
Definition identity_of (r : Enrollment)
  : string * string * string * string * string * N :=
  (ID r, CommonName r, Organization r, Email r, CSR r, CreatedAt r).

Section Bound.

Variable ParseCSR : string -> result x509.CertificateRequest.

(** The CSR of the row parses and names the common name of the row. *)
Definition csr_names_row (r : Enrollment) : Prop :=
  exists csr, ParseCSR (CSR r) = Ok csr /\
              x509.CommonName (x509.Subject csr) = CommonName r.

End Bound.

(** ** Fixtures *)

(** A parser for the examples: [CN=name] is a request for [name]. *)
Definition sample_ParseCSR (pem : string) : result x509.CertificateRequest :=
  match pem with
  | String "C" (String "N" (String "=" cn)) =>
      Ok (x509.mkCertificateRequest (x509.mkName cn))
  | _ => Err (ErrOutside "failed to decode PEM block containing CSR")
  end.

Definition fresh_world : World := mkWorld [] 0 1000 [] [] [] [] [] [].

Definition sample_history : list Call :=
  [ CallCreateEnrollment "svc.internal" "Ops" "ops@example.com" "CN=svc.internal";
    CallCreateEnrollment "api.example.com" "Web" "web@example.com" "CN=api.example.com" ].

(** The table is empty; the clock will move by these amounts. *)
Definition first_world : World :=
  mkWorld [] 0 1000 [5; 0; 7; 1; 3; 2] [] [] [] [] [].

Definition two_pending : World :=
  Eval vm_compute in run sample_ParseCSR sample_history first_world.

Definition approved_world : World :=
  Eval vm_compute in
    run sample_ParseCSR [CallApproveEnrollment "1" "alice"] two_pending.

Definition rejected_world : World :=
  Eval vm_compute in
    run sample_ParseCSR [CallRejectEnrollment "2" "bob" "duplicate request"]
        approved_world.

(** Record 1 is approved; the CA will time out, then sign. *)
Definition ca_world : World :=
  set_ca [Err (ErrOutside "rpc error: code = DeadlineExceeded");
          Ok (capb.mkResponse "-----BEGIN CERTIFICATE-----" "4F:2A:11")]
         approved_world.

(** [two_pending] with a pool that refuses the next statement, an INSERT
    that had drawn its id before it was refused. *)
Definition refusing_world : World :=
  mkWorld (rows two_pending) (id_seq two_pending) (clock two_pending)
          (ticks two_pending)
          [Some (ErrOutside "value too long for type character varying(255)")]
          (ca two_pending) [true] [] (trace two_pending).

(** ** Tactics *)

(** Runs the monad. *)
Ltac mrun :=
  repeat (progress (
    cbv beta iota zeta delta
      [bind wrapping logger_Info time_Now db_send ret fail ca_call rows_of];
    cbn [fst snd pool rows clock ticks trace ca id_seq burns fetches
         set_pool set_clock set_table set_ca set_fetches emit drawn negb])).

(** Projects the worlds. *)
Ltac wsimpl :=
  cbv beta iota zeta delta [after_send after_Now after_call];
  cbn [fst snd pool rows clock ticks trace ca id_seq burns fetches
       set_pool set_clock set_table set_ca set_fetches emit drawn
       ID CommonName Organization Email CSR Status ApprovedBy RejectedBy
       RejectReason CreatedAt UpdatedAt].

Ltac wsimpl_in H :=
  cbv beta iota zeta delta [after_send after_Now after_call] in H;
  cbn [fst snd pool rows clock ticks trace ca id_seq burns fetches
       set_pool set_clock set_table set_ca set_fetches emit drawn] in H.

(** Takes the membership in an explicit list apart. *)
Ltac member_cases H :=
  repeat (destruct H as [H|H]; try discriminate); try contradiction.

(** ** Evaluating the operations *)

Lemma GetByID_eval id w :
  storage.GetByID id w =
  (match hd None (pool w) with
   | Some e => Err (Errorf_w "failed to get enrollment: " e)
   | None => match storage.select_by_id id (rows w) with
             | Some r => Ok r
             | None => Err (Errorf_w "failed to get enrollment: " ErrNoRows)
             end
   end, after_send (SelectByID id) w).
Proof.
  unfold storage.GetByID, after_send. mrun.
  destruct (hd None (pool w)); mrun; [reflexivity|].
  destruct (storage.select_by_id id (rows w)); reflexivity.
Qed.

Lemma Update_eval e w :
  storage.Update e w =
  let w1 := after_send (UpdateByID (ID e)) w in
  match hd None (pool w) with
  | Some err => (Err (Errorf_w "failed to update enrollment: " err), w1)
  | None => (Ok tt, set_table (storage.update_rows e (rows w)) (id_seq w) w1)
  end.
Proof.
  unfold storage.Update, after_send. mrun.
  destruct (hd None (pool w)); mrun; reflexivity.
Qed.


Lemma List_eval status w :
  storage.List status w =
  let w1 := after_send (SelectList status) w in
  match hd None (pool w) with
  | Some err => (Err (Errorf_w "failed to list enrollments: " err), w1)
  | None => (read_rows (hd FetchAll (fetches w))
                       (storage.select_list status (rows w)),
             set_fetches (tl (fetches w)) w1)
  end.
Proof.
  unfold storage.List, after_send. mrun.
  destruct (hd None (pool w)); mrun; reflexivity.
Qed.

Lemma check_pending_eval id w :
  steps.check_pending id w =
  (match hd None (pool w) with
   | Some e => Err (NotFound (Errorf_w "failed to get enrollment: " e))
   | None =>
       match storage.select_by_id id (rows w) with
       | None => Err (NotFound (Errorf_w "failed to get enrollment: " ErrNoRows))
       | Some r => if (Status r =? "pending")%string then Ok r
                   else Err InvalidTransition
       end
   end, after_send (SelectByID id) w).
Proof.
  unfold steps.check_pending. unfold bind at 1, wrapping at 1.
  rewrite GetByID_eval.
  destruct (hd None (pool w)); [reflexivity|].
  destruct (storage.select_by_id id (rows w)) as [r|]; [|reflexivity].
  destruct (Status r =? "pending")%string; reflexivity.
Qed.

Lemma commit_approval_eval approvedBy r w :
  steps.commit_approval approvedBy r w =
  let now := clock w + hd 0 (ticks w) in
  let w1 := after_send (UpdateByID (ID r))
              (after_Now (emit (EvLog "Approving enrollment") w)) in
  match hd None (pool w) with
  | Some err =>
      (Err (Errorf_w "failed to update enrollment: "
              (Errorf_w "failed to update enrollment: " err)), w1)
  | None =>
      (Ok tt,
       emit (EvLog "Enrollment queued for CA signing")
         (set_table (storage.update_rows
                       (service.with_approval approvedBy now r) (rows w))
                    (id_seq w) w1))
  end.
Proof.
  unfold steps.commit_approval, storage.Update, after_send, after_Now. mrun.
  destruct (hd None (pool w)); mrun; reflexivity.
Qed.

Lemma commit_rejection_eval rejectedBy reason r w :
  steps.commit_rejection rejectedBy reason r w =
  let now := clock w + hd 0 (ticks w) in
  let w1 := after_send (UpdateByID (ID r))
              (after_Now (emit (EvLog "Rejecting enrollment") w)) in
  match hd None (pool w) with
  | Some err =>
      (Err (Errorf_w "failed to update enrollment: "
              (Errorf_w "failed to update enrollment: " err)), w1)
  | None =>
      (Ok tt,
       set_table (storage.update_rows
                    (service.with_rejection rejectedBy reason now r) (rows w))
                 (id_seq w) w1)
  end.
Proof.
  unfold steps.commit_rejection, storage.Update, after_send, after_Now. mrun.
  destruct (hd None (pool w)); mrun; reflexivity.
Qed.

(** The operations of the service are their two steps in sequence. *)
Lemma transition_stepwise id v w :
  steps.transition id v w = steps.stepwise id v w.
Proof.
  destruct v as [approvedBy | rejectedBy reason];
    cbv beta iota delta
      [steps.transition steps.stepwise steps.check_pending steps.commit
       service.ApproveEnrollment steps.commit_approval
       service.RejectEnrollment steps.commit_rejection bind].
  all: destruct (wrapping "enrollment not found: " (storage.GetByID id) w)
         as [[r|e] w1]; [|reflexivity].
  all: destruct (Status r =? "pending")%string; reflexivity.
Qed.

Lemma transition_eval id v w :
  steps.transition id v w =
  let w1 := after_send (SelectByID id) w in
  match hd None (pool w) with
  | Some e => (Err (NotFound (Errorf_w "failed to get enrollment: " e)), w1)
  | None =>
      match storage.select_by_id id (rows w) with
      | None => (Err (NotFound (Errorf_w "failed to get enrollment: " ErrNoRows)), w1)
      | Some r => if (Status r =? "pending")%string then steps.commit v r w1
                  else (Err InvalidTransition, w1)
      end
  end.
Proof.
  rewrite transition_stepwise. unfold steps.stepwise, bind.
  rewrite check_pending_eval. cbv zeta.
  destruct (hd None (pool w)); [reflexivity|].
  destruct (storage.select_by_id id (rows w)) as [r|]; [|reflexivity].
  destruct (Status r =? "pending")%string; reflexivity.
Qed.

Section CreateEnrollment_eval.

Variable ParseCSR : string -> result x509.CertificateRequest.

Lemma CreateEnrollment_eval cn org email csrPEM w :
  service.CreateEnrollment ParseCSR cn org email csrPEM w =
  match ParseCSR csrPEM with
  | Err e => (Err (InvalidCSR e), w)
  | Ok csr =>
      let w1 := emit (EvLog "Creating enrollment") w in
      if (x509.CommonName (x509.Subject csr) =? cn)%string then
        let createdAt := clock w + hd 0 (ticks w) in
        let updatedAt := createdAt + hd 0 (tl (ticks w)) in
        let enrollment :=
          mkEnrollment "" cn org email csrPEM "pending" None None None
                       createdAt updatedAt in
        let w2 := after_send InsertEnrollment (after_Now (after_Now w1)) in
        match hd None (pool w) with
        | Some err =>
            (Err (Errorf_w "failed to create enrollment: "
                    (Errorf_w "failed to create enrollment: " err)),
             drawn InsertEnrollment w2)
        | None =>
            let id := pretty (N.succ (id_seq w)) in
            (Ok (storage.with_ID id enrollment),
             set_table (rows w ++ [storage.inserted_row id enrollment])
                       (N.succ (id_seq w)) w2)
        end
      else (Err IdentityMismatch, w1)
  end.
Proof.
  unfold service.CreateEnrollment, storage.Create, after_send, after_Now.
  mrun. destruct (ParseCSR csrPEM) as [csr|e]; mrun; [|reflexivity].
  destruct (x509.CommonName (x509.Subject csr) =? cn)%string; mrun;
    [|reflexivity].
  destruct (hd None (pool w)); mrun; reflexivity.
Qed.

End CreateEnrollment_eval.

(** ** Creation *)

(** C1. For every [csrPEM] that parses as a signing request whose subject
    common name is not, byte for byte, the claimed [cn], [CreateEnrollment]
    fails with [IdentityMismatch]; no record is persisted and no statement
    reaches the repository: the only trace of the call is its log line. *)
Theorem CreateEnrollment_identity_mismatch
  (ParseCSR : string -> result x509.CertificateRequest)
  (cn org email csrPEM : string) (csr : x509.CertificateRequest) (w : World) :
  ParseCSR csrPEM = Ok csr ->
  x509.CommonName (x509.Subject csr) <> cn ->
  let out := service.CreateEnrollment ParseCSR cn org email csrPEM w in
  fst out = Err IdentityMismatch /\
  rows (snd out) = rows w /\
  id_seq (snd out) = id_seq w /\
  pool (snd out) = pool w /\
  trace (snd out) = EvLog "Creating enrollment" :: trace w.
Proof.
  intros Hparse Hcn. cbv zeta. rewrite CreateEnrollment_eval, Hparse.
  apply String.eqb_neq in Hcn. cbv zeta. rewrite Hcn. repeat split.
Qed.

Lemma CreateEnrollment_identity_mismatch_witness :
  let out := service.CreateEnrollment sample_ParseCSR "api.example.com" "Web"
               "web@example.com" "CN=evil.example.com" two_pending in
  fst out = Err IdentityMismatch /\
  rows (snd out) = rows two_pending /\
  id_seq (snd out) = id_seq two_pending /\
  pool (snd out) = pool two_pending /\
  trace (snd out) = EvLog "Creating enrollment" :: trace two_pending.
Proof.
  apply (CreateEnrollment_identity_mismatch sample_ParseCSR
           "api.example.com" "Web" "web@example.com" "CN=evil.example.com"
           (x509.mkCertificateRequest (x509.mkName "evil.example.com"))
           two_pending).
  - reflexivity.
  - discriminate.
Defined.

(** The comparison is case-sensitive. *)
Example CreateEnrollment_case_sensitive :
  fst (service.CreateEnrollment sample_ParseCSR "api.example.com" "Web"
         "web@example.com" "CN=API.example.com" fresh_world)
  = Err IdentityMismatch.
Proof. reflexivity. Qed.

(** C5. For every [csrPEM] that parses as a signing request whose subject
    common name is exactly the claimed [cn], and a repository that serves
    the insert, [CreateEnrollment] succeeds: it appends one row to the
    table, returns that row, and the row is [pending], carries the claimed
    attributes and the raw CSR, and has no decision recorded. *)
Theorem CreateEnrollment_pending
  (ParseCSR : string -> result x509.CertificateRequest)
  (cn org email csrPEM : string) (csr : x509.CertificateRequest) (w : World) :
  ParseCSR csrPEM = Ok csr ->
  x509.CommonName (x509.Subject csr) = cn ->
  served w ->
  exists enrollment w',
    service.CreateEnrollment ParseCSR cn org email csrPEM w = (Ok enrollment, w') /\
    Status enrollment = "pending" /\
    rows w' = (rows w ++ [enrollment])%list /\
    ID enrollment = pretty (N.succ (id_seq w)) /\
    CommonName enrollment = cn /\ Organization enrollment = org /\
    Email enrollment = email /\ CSR enrollment = csrPEM /\
    ApprovedBy enrollment = None /\ RejectedBy enrollment = None /\
    RejectReason enrollment = None.
Proof.
  intros Hparse Hcn Hserved. red in Hserved.
  rewrite CreateEnrollment_eval, Hparse. cbv zeta.
  apply String.eqb_eq in Hcn. rewrite Hcn, Hserved.
  eexists _, _. split; [reflexivity|]. repeat split.
Qed.

Lemma CreateEnrollment_pending_witness :
  exists enrollment w',
    service.CreateEnrollment sample_ParseCSR "api.example.com" "Web"
      "web@example.com" "CN=api.example.com" fresh_world = (Ok enrollment, w') /\
    Status enrollment = "pending" /\
    rows w' = (rows fresh_world ++ [enrollment])%list /\
    ID enrollment = pretty (N.succ (id_seq fresh_world)) /\
    CommonName enrollment = "api.example.com" /\ Organization enrollment = "Web" /\
    Email enrollment = "web@example.com" /\ CSR enrollment = "CN=api.example.com" /\
    ApprovedBy enrollment = None /\ RejectedBy enrollment = None /\
    RejectReason enrollment = None.
Proof.
  apply (CreateEnrollment_pending sample_ParseCSR
           "api.example.com" "Web" "web@example.com" "CN=api.example.com"
           (x509.mkCertificateRequest (x509.mkName "api.example.com"))
           fresh_world); reflexivity.
Defined.

(** ** Transitions *)

Lemma decided_Status v now r : Status (decided v now r) = verdict_status v.
Proof. destruct v; reflexivity. Qed.

Lemma decided_ID v now r : ID (decided v now r) = ID r.
Proof. destruct v; reflexivity. Qed.

Lemma verdict_status_not_pending v : verdict_status v <> "pending".
Proof. destruct v; discriminate. Qed.

Lemma select_by_id_Some id rs r :
  storage.select_by_id id rs = Some r -> In r rs /\ ID r = id.
Proof.
  unfold storage.select_by_id. intros H. apply find_some in H.
  destruct H as [Hin Heq]. split; [exact Hin|]. apply String.eqb_eq, Heq.
Qed.

Lemma select_by_id_update id rs r e :
  storage.select_by_id id rs = Some r -> ID e = id ->
  storage.select_by_id id (storage.update_rows e rs)
  = Some (storage.updated_row e r).
Proof.
  intros Hsel <-. induction rs as [|x rs IH]; [discriminate|].
  cbn in *. destruct (ID x =? ID e)%string eqn:Hx.
  - injection Hsel as ->. cbn. rewrite Hx. reflexivity.
  - rewrite Hx. apply IH, Hsel.
Qed.

(** What a successful commit leaves behind. *)
Lemma commit_Ok v r w w' :
  steps.commit v r w = (Ok tt, w') ->
  served w /\
  rows w' = storage.update_rows (decided v (clock w + hd 0 (ticks w)) r) (rows w) /\
  id_seq w' = id_seq w /\
  clock w' = clock w + hd 0 (ticks w) /\
  pool w' = tl (pool w) /\
  ca w' = ca w /\
  trace w' = (verdict_log v ++
              [EvSQL (UpdateByID (ID r)); verdict_announce v] ++ trace w)%list.
Proof.
  unfold served.
  destruct v as [approvedBy | rejectedBy reason]; cbn [steps.commit];
    [rewrite commit_approval_eval | rewrite commit_rejection_eval]; cbv zeta;
    destruct (hd None (pool w)); intros H; try discriminate;
    injection H as <-; repeat split.
Qed.

Lemma commit_rows v r w :
  rows (snd (steps.commit v r w)) = rows w \/
  (fst (steps.commit v r w) = Ok tt /\
   rows (snd (steps.commit v r w))
   = storage.update_rows (decided v (clock w + hd 0 (ticks w)) r) (rows w)).
Proof.
  destruct v as [approvedBy | rejectedBy reason]; cbn [steps.commit];
    [rewrite commit_approval_eval | rewrite commit_rejection_eval]; cbv zeta;
    destruct (hd None (pool w)); [left| right|left|right]; repeat split.
Qed.

Lemma commit_clock v r w :
  clock (snd (steps.commit v r w)) = clock w + hd 0 (ticks w).
Proof.
  destruct v as [approvedBy | rejectedBy reason]; cbn [steps.commit];
    [rewrite commit_approval_eval | rewrite commit_rejection_eval]; cbv zeta;
    destruct (hd None (pool w)); reflexivity.
Qed.

(** What a successful transition found and what it leaves behind. *)
Lemma transition_Ok id v w w' :
  steps.transition id v w = (Ok tt, w') ->
  exists r,
    served w /\ hd None (tl (pool w)) = None /\
    storage.select_by_id id (rows w) = Some r /\ Status r = "pending" /\
    rows w' = storage.update_rows (decided v (clock w + hd 0 (ticks w)) r) (rows w) /\
    id_seq w' = id_seq w /\
    clock w' = clock w + hd 0 (ticks w) /\
    pool w' = tl (tl (pool w)) /\
    ca w' = ca w /\
    trace w' = (verdict_log v ++
                [EvSQL (UpdateByID id); verdict_announce v; EvSQL (SelectByID id)]
                ++ trace w)%list.
Proof.
  rewrite transition_eval. cbv zeta. unfold served.
  destruct (hd None (pool w)) eqn:Hp; [discriminate|].
  destruct (storage.select_by_id id (rows w)) as [r|] eqn:Hsel; [|discriminate].
  destruct (Status r =? "pending")%string eqn:Hst; [|discriminate].
  intros H. apply commit_Ok in H.
  destruct H as (Hs & Hrows & Hseq & Hclock & Hpool & Hca & Htrace).
  apply select_by_id_Some in Hsel as Hid. destruct Hid as [_ Hid].
  exists r. rewrite Hid in Htrace. apply String.eqb_eq in Hst.
  repeat split; assumption.
Qed.

(** A transition that does not succeed leaves every row as it was. *)
Lemma transition_Err_rows id v w e :
  fst (steps.transition id v w) = Err e ->
  rows (snd (steps.transition id v w)) = rows w.
Proof.
  rewrite transition_eval. cbv zeta.
  destruct (hd None (pool w)); [reflexivity|].
  destruct (storage.select_by_id id (rows w)) as [r|]; [|reflexivity].
  destruct (Status r =? "pending")%string; [|reflexivity].
  destruct (commit_rows v r (after_send (SelectByID id) w)) as [H|[H _]];
    [intros _; exact H | rewrite H; discriminate].
Qed.

(** A record that is not pending is refused, whatever the verdict. *)
Lemma transition_not_pending id v w r :
  served w -> storage.select_by_id id (rows w) = Some r ->
  Status r <> "pending" ->
  steps.transition id v w = (Err InvalidTransition, after_send (SelectByID id) w).
Proof.
  unfold served. intros Hp Hsel Hst. rewrite transition_eval. cbv zeta.
  rewrite Hp, Hsel. apply String.eqb_neq in Hst. rewrite Hst. reflexivity.
Qed.

(** Once a transition has succeeded, the next one on the same id is
    refused. *)
Lemma transition_once id v v' w w' :
  steps.transition id v w = (Ok tt, w') -> served w' ->
  steps.transition id v' w' = (Err InvalidTransition, after_send (SelectByID id) w').
Proof.
  intros H Hserved. apply transition_Ok in H.
  destruct H as (r & _ & _ & Hsel & _ & Hrows & _).
  apply transition_not_pending with
    (r := storage.updated_row (decided v (clock w + hd 0 (ticks w)) r) r).
  - exact Hserved.
  - rewrite Hrows. apply select_by_id_update; [exact Hsel|].
    rewrite decided_ID. apply (select_by_id_Some _ _ _ Hsel).
  - cbn. rewrite decided_Status. apply verdict_status_not_pending.
Qed.

(** Whatever the repository answers, a record that is not pending makes
    the transition fail and is left as it was. *)
Lemma transition_not_pending_fails id v w r :
  storage.select_by_id id (rows w) = Some r -> Status r <> "pending" ->
  exists e, steps.transition id v w = (Err e, after_send (SelectByID id) w).
Proof.
  intros Hsel Hst. rewrite transition_eval. cbv zeta. rewrite Hsel.
  apply String.eqb_neq in Hst. rewrite Hst.
  destruct (hd None (pool w)); eexists; reflexivity.
Qed.

(** C3. A record whose status is not [pending] is refused by both
    [ApproveEnrollment] and [RejectEnrollment] with [InvalidTransition],
    and the table is left as it was.  In particular an approval that
    follows a successful approval of the same id is refused, and so is an
    approval that follows a successful rejection.  (The error is
    [InvalidTransition] when the repository serves the read of the record;
    when it does not, the operations fail all the same and the table is
    left as it was.) *)
Theorem decided_record_refuses_transition (id : string) (w : World) :
  (forall r approvedBy rejectedBy reason,
     served w -> storage.select_by_id id (rows w) = Some r ->
     Status r <> "pending" ->
     fst (service.ApproveEnrollment id approvedBy w) = Err InvalidTransition /\
     rows (snd (service.ApproveEnrollment id approvedBy w)) = rows w /\
     fst (service.RejectEnrollment id rejectedBy reason w) = Err InvalidTransition /\
     rows (snd (service.RejectEnrollment id rejectedBy reason w)) = rows w) /\
  (forall approvedBy again w1,
     service.ApproveEnrollment id approvedBy w = (Ok tt, w1) -> served w1 ->
     fst (service.ApproveEnrollment id again w1) = Err InvalidTransition /\
     rows (snd (service.ApproveEnrollment id again w1)) = rows w1) /\
  (forall rejectedBy reason approvedBy w1,
     service.RejectEnrollment id rejectedBy reason w = (Ok tt, w1) -> served w1 ->
     fst (service.ApproveEnrollment id approvedBy w1) = Err InvalidTransition /\
     rows (snd (service.ApproveEnrollment id approvedBy w1)) = rows w1) /\
  (forall r approvedBy rejectedBy reason,
     storage.select_by_id id (rows w) = Some r -> Status r <> "pending" ->
     (exists e, fst (service.ApproveEnrollment id approvedBy w) = Err e) /\
     rows (snd (service.ApproveEnrollment id approvedBy w)) = rows w /\
     (exists e, fst (service.RejectEnrollment id rejectedBy reason w) = Err e) /\
     rows (snd (service.RejectEnrollment id rejectedBy reason w)) = rows w).
Proof.
  split; [|split; [|split]].
  4:{ intros r approvedBy rejectedBy reason Hsel Hst.
      destruct (transition_not_pending_fails id (steps.Approve approvedBy) w r
                  Hsel Hst) as [ea Ha].
      destruct (transition_not_pending_fails id (steps.Reject rejectedBy reason)
                  w r Hsel Hst) as [er Hr].
      cbn [steps.transition] in Ha, Hr. rewrite Ha, Hr.
      repeat split; eexists; reflexivity. }
  - intros r approvedBy rejectedBy reason Hserved Hsel Hst.
    pose proof (transition_not_pending id (steps.Approve approvedBy) w r
                  Hserved Hsel Hst) as Ha.
    pose proof (transition_not_pending id (steps.Reject rejectedBy reason) w r
                  Hserved Hsel Hst) as Hr.
    cbn [steps.transition] in Ha, Hr. rewrite Ha, Hr. repeat split.
  - intros approvedBy again w1 H Hserved.
    pose proof (transition_once id (steps.Approve approvedBy)
                  (steps.Approve again) w w1 H Hserved) as H1.
    cbn [steps.transition] in H1. rewrite H1. split; reflexivity.
  - intros rejectedBy reason approvedBy w1 H Hserved.
    pose proof (transition_once id (steps.Reject rejectedBy reason)
                  (steps.Approve approvedBy) w w1 H Hserved) as H1.
    cbn [steps.transition] in H1. rewrite H1. split; reflexivity.
Qed.

Lemma decided_record_refuses_transition_witness :
  (fst (service.ApproveEnrollment "2" "carol" rejected_world) = Err InvalidTransition /\
   rows (snd (service.ApproveEnrollment "2" "carol" rejected_world))
   = rows rejected_world /\
   fst (service.RejectEnrollment "2" "dave" "late" rejected_world)
   = Err InvalidTransition /\
   rows (snd (service.RejectEnrollment "2" "dave" "late" rejected_world))
   = rows rejected_world) /\
  (fst (service.ApproveEnrollment "1" "carol" approved_world) = Err InvalidTransition /\
   rows (snd (service.ApproveEnrollment "1" "carol" approved_world))
   = rows approved_world) /\
  (fst (service.ApproveEnrollment "2" "carol" rejected_world) = Err InvalidTransition /\
   rows (snd (service.ApproveEnrollment "2" "carol" rejected_world))
   = rows rejected_world).
Proof.
  split; [|split].
  - apply (proj1 (decided_record_refuses_transition "2" rejected_world)
             (mkEnrollment "2" "api.example.com" "Web" "web@example.com"
                "CN=api.example.com" "rejected" None (Some "bob")
                (Some "duplicate request") 1012 1018)
             "carol" "dave" "late").
    + reflexivity.
    + reflexivity.
    + discriminate.
  - apply (proj1 (proj2 (decided_record_refuses_transition "1" two_pending))
             "alice" "carol" approved_world); reflexivity.
  - apply (proj1 (proj2 (proj2
             (decided_record_refuses_transition "2" approved_world)))
             "bob" "duplicate request" "carol" rejected_world); reflexivity.
Defined.

(** ** Invariants of the reachable worlds *)

Lemma row_ok_later now now' r : now <= now' -> row_ok now r -> row_ok now' r.
Proof.
  intros Hle (Hs & Ha & Hc1 & Hc2). repeat split; try assumption; try apply Ha.
  lia.
Qed.

Lemma table_ok_later w w' :
  rows w' = rows w -> clock w <= clock w' -> table_ok w -> table_ok w'.
Proof.
  unfold table_ok. intros -> Hle H.
  eapply Forall_impl; [exact H|]. intros r. apply row_ok_later, Hle.
Qed.

Lemma pending_row_ok now e :
  Status e = "pending" ->
  ApprovedBy e = None -> RejectedBy e = None -> RejectReason e = None ->
  CreatedAt e <= UpdatedAt e -> UpdatedAt e <= now ->
  row_ok now e.
Proof.
  intros Hs Ha Hr Hrr H1 H2. unfold row_ok, written_status, actors_consistent,
    stamps_consistent, non_empty, approved_branch.
  rewrite Hs, Ha, Hr, Hrr.
  repeat split; auto; try (intros [x Hx]; discriminate);
    try (intros [H|[H|H]]; discriminate); try discriminate.
Qed.

Lemma not_non_empty (field : option string) : ~ non_empty field -> field = None.
Proof.
  destruct field as [x|]; [|reflexivity]. intros H. destruct H. exists x. reflexivity.
Qed.

(** The row a verdict writes over a row of the table, from a pending row
    it has read. *)
Lemma decided_row_ok v now now' seen r :
  row_ok now seen -> Status seen = "pending" -> row_ok now r -> now <= now' ->
  row_ok now' (storage.updated_row (decided v now' seen) r).
Proof.
  intros (_ & (Ha & Hr & Hrr) & _) Hpending (_ & _ & Hc1 & Hc2) Hle.
  assert (ApprovedBy seen = None) as Hnoa.
  { apply not_non_empty. rewrite Ha, Hpending. intros [H|[H|H]]; discriminate. }
  assert (RejectedBy seen = None) as Hnor.
  { apply not_non_empty. rewrite Hr, Hpending. discriminate. }
  assert (RejectReason seen = None) as Hnorr.
  { apply not_non_empty. rewrite Hrr, Hpending. discriminate. }
  unfold row_ok, written_status, actors_consistent, stamps_consistent,
    non_empty, approved_branch.
  destruct v as [approvedBy | rejectedBy reason]; cbn;
    rewrite ?Hnoa, ?Hnor, ?Hnorr.
  - repeat split; eauto; try (intros [x Hx]; discriminate); try discriminate; lia.
  - repeat split; eauto; try (intros [x Hx]; discriminate);
      try (intros [H|[H|H]]; discriminate); lia.
Qed.

Lemma update_rows_ok v now now' seen rs :
  Forall (row_ok now) rs -> In seen rs -> Status seen = "pending" ->
  now <= now' ->
  Forall (row_ok now') (storage.update_rows (decided v now' seen) rs).
Proof.
  intros Hall Hin Hpending Hle.
  pose proof (proj1 (List.Forall_forall _ _) Hall) as Hrows.
  unfold storage.update_rows. apply List.Forall_forall. intros x Hx.
  apply in_map_iff in Hx. destruct Hx as (r & <- & Hr).
  assert (row_ok now seen) as Hseen by auto.
  assert (row_ok now r) as Hrow by auto.
  destruct (ID r =? ID (decided v now' seen))%string.
  - apply decided_row_ok with (now := now); assumption.
  - apply row_ok_later with (now := now); assumption.
Qed.

Lemma transition_effect id v w :
  table_effect w (snd (steps.transition id v w)).
Proof.
  rewrite transition_eval. cbv zeta.
  assert (table_effect w (after_send (SelectByID id) w)) as Hnone.
  { apply effect_none; wsimpl; [reflexivity|clear; lia|clear; lia]. }
  destruct (hd None (pool w)); [exact Hnone|].
  destruct (storage.select_by_id id (rows w)) as [r|] eqn:Hsel; [|exact Hnone].
  destruct (Status r =? "pending")%string eqn:Hst; [|exact Hnone].
  apply String.eqb_eq in Hst. apply select_by_id_Some in Hsel as [Hin _].
  destruct v as [approvedBy | rejectedBy reason]; cbn [steps.commit];
    [rewrite commit_approval_eval | rewrite commit_rejection_eval]; cbv zeta;
    destruct (hd None (pool _)).
  - apply effect_none; wsimpl; [reflexivity|clear; lia|clear; lia].
  - apply (effect_update _ _ (steps.Approve approvedBy) r); wsimpl;
      [exact Hin|exact Hst|reflexivity|reflexivity|clear; lia].
  - apply effect_none; wsimpl; [reflexivity|clear; lia|clear; lia].
  - apply (effect_update _ _ (steps.Reject rejectedBy reason) r); wsimpl;
      [exact Hin|exact Hst|reflexivity|reflexivity|clear; lia].
Qed.

Lemma effect_table_ok w w' : table_effect w w' -> table_ok w -> table_ok w'.
Proof.
  intros [Hrows _ Hle | e Hrows _ _ Hs Ha Hr Hrr H1 H2 Hle
          | v seen Hin Hs Hrows _ Hle] Hok.
  - apply table_ok_later with (w := w); assumption.
  - unfold table_ok. rewrite Hrows. apply Forall_app. split.
    + eapply Forall_impl; [exact Hok|]. intros r. apply row_ok_later, Hle.
    + constructor; [|constructor]. apply pending_row_ok; assumption.
  - unfold table_ok. rewrite Hrows.
    apply update_rows_ok with (now := clock w); assumption.
Qed.

Lemma update_rows_IDs e rs : map ID (storage.update_rows e rs) = map ID rs.
Proof.
  unfold storage.update_rows. rewrite map_map. apply map_ext.
  intros r. destruct (ID r =? ID e)%string; reflexivity.
Qed.

Lemma effect_ids_ok w w' : table_effect w w' -> ids_ok w -> ids_ok w'.
Proof.
  intros [Hrows Hseq _ | e Hrows Hseq Hid _ _ _ _ _ _ _
          | v seen _ _ Hrows Hseq _] [Hall Hnodup]; unfold ids_ok.
  - rewrite Hrows. split; [|assumption].
    eapply Forall_impl; [exact Hall|]. intros r (k & Hk & Hr).
    exists k. split; [clear - Hk Hseq; lia|exact Hr].
  - rewrite Hrows, Hseq. split.
    + apply Forall_app. split.
      * eapply Forall_impl; [exact Hall|]. intros r (k & Hk & Hr).
        exists k. split; [clear - Hk; lia|exact Hr].
      * constructor; [|constructor]. exists (N.succ (id_seq w)).
        split; [clear; lia|exact Hid].
    + rewrite map_app. cbn [map]. apply NoDup_app. split; [exact Hnodup|].
      split; [|apply NoDup_singleton].
      intros x Hx Hnew. apply list_elem_of_In in Hx. apply in_map_iff in Hx.
      destruct Hx as (r & <- & Hr).
      apply list_elem_of_singleton in Hnew.
      pose proof (proj1 (List.Forall_forall _ _) Hall r Hr) as (k & Hk & Hrk).
      rewrite Hid, Hrk in Hnew. apply (inj pretty) in Hnew.
      clear - Hk Hnew. lia.
  - rewrite Hseq. split.
    + rewrite Hrows. unfold storage.update_rows. apply List.Forall_forall.
      intros x Hx. apply in_map_iff in Hx. destruct Hx as (r & <- & Hr).
      pose proof (proj1 (List.Forall_forall _ _) Hall r Hr) as Hrk.
      destruct (ID r =? ID _)%string; exact Hrk.
    + rewrite Hrows, update_rows_IDs. exact Hnodup.
Qed.

(** A write made from a pending record read earlier, whatever has been
    written to the table since, keeps the rows well formed. *)
Lemma stale_commit_table_ok v seen w :
  row_ok (clock w) seen -> Status seen = "pending" ->
  table_ok w -> table_ok (snd (steps.commit v seen w)).
Proof.
  intros Hseen Hpending Hok.
  assert (clock w <= clock (snd (steps.commit v seen w))) as Hle
    by (rewrite commit_clock; clear; lia).
  destruct (commit_rows v seen w) as [H|[_ H]].
  - apply table_ok_later with (w := w); assumption.
  - unfold table_ok. rewrite H, commit_clock.
    unfold storage.update_rows. apply List.Forall_forall.
    intros x Hx. apply in_map_iff in Hx. destruct Hx as (r & <- & Hr).
    pose proof (proj1 (List.Forall_forall _ _) Hok r Hr) as Hrow.
    destruct (ID r =? ID _)%string.
    + apply decided_row_ok with (now := clock w);
        [exact Hseen|exact Hpending|exact Hrow|clear; lia].
    + apply row_ok_later with (now := clock w); [clear; lia|exact Hrow].
Qed.

Lemma SignCSR_eval csrPEM validityDays w :
  grpc.SignCSR csrPEM validityDays w =
  let req := capb.mkSignCSRRequest csrPEM (grpc.int32 validityDays) "server" in
  let w1 := after_call (RpcSignCSR req)
              (emit (EvLog "Signing CSR via CA service") w) in
  match next_reply w with
  | Ok resp => (Ok (capb.CertificatePem resp),
                emit (EvLog "CSR signed successfully") w1)
  | Err e => (Err (Errorf_w "failed to sign CSR: " e), w1)
  end.
Proof.
  unfold grpc.SignCSR, next_reply, after_call. mrun.
  destruct (hd _ (ca w)); mrun; reflexivity.
Qed.

(** The CA client never touches the table, the sequence or the clock. *)
Lemma SignCSR_untouched csrPEM validityDays w :
  let out := grpc.SignCSR csrPEM validityDays w in
  rows (snd out) = rows w /\ clock (snd out) = clock w /\
  id_seq (snd out) = id_seq w.
Proof.
  cbv zeta. rewrite SignCSR_eval. cbv zeta.
  destruct (next_reply w); repeat split.
Qed.

Lemma GetCertificate_untouched serial w :
  let out := grpc.GetCertificate serial w in
  rows (snd out) = rows w /\ clock (snd out) = clock w /\
  id_seq (snd out) = id_seq w.
Proof.
  unfold grpc.GetCertificate. mrun.
  destruct (hd _ (ca w)); mrun; repeat split.
Qed.

Lemma RevokeCertificate_untouched serial reason w :
  let out := grpc.RevokeCertificate serial reason w in
  rows (snd out) = rows w /\ clock (snd out) = clock w /\
  id_seq (snd out) = id_seq w.
Proof.
  unfold grpc.RevokeCertificate. mrun.
  destruct (hd _ (ca w)); mrun; repeat split.
Qed.

Section Reachable.

Variable ParseCSR : string -> result x509.CertificateRequest.

Lemma CreateEnrollment_effect cn org email csrPEM w :
  table_effect w (snd (service.CreateEnrollment ParseCSR cn org email csrPEM w)).
Proof.
  rewrite CreateEnrollment_eval.
  destruct (ParseCSR csrPEM) as [csr|e];
    [|apply effect_none; wsimpl; [reflexivity|clear; lia|clear; lia]]. cbv zeta.
  destruct (x509.CommonName (x509.Subject csr) =? cn)%string;
    [|apply effect_none; wsimpl; [reflexivity|clear; lia|clear; lia]].
  destruct (hd None (pool w)).
  - apply effect_none; wsimpl;
      [reflexivity|destruct (hd false _); clear; lia|clear; lia].
  - eapply effect_insert; [wsimpl; reflexivity|..];
      unfold storage.inserted_row; wsimpl; try reflexivity; clear; lia.
Qed.

Lemma exec_effect c w : table_effect w (exec ParseCSR c w).
Proof.
  destruct c; cbn [exec].
  - apply CreateEnrollment_effect.
  - unfold service.ListEnrollments. rewrite List_eval. cbv zeta.
    destruct (hd None (pool w));
      (apply effect_none; wsimpl; [reflexivity|clear; lia|clear; lia]).
  - unfold service.GetEnrollment. rewrite GetByID_eval.
    apply effect_none; wsimpl; [reflexivity|clear; lia|clear; lia].
  - apply (transition_effect id (steps.Approve approvedBy)).
  - apply (transition_effect id (steps.Reject rejectedBy reason)).
  - destruct (SignCSR_untouched csrPEM validityDays w) as (Hr & Hc & Hs).
    apply effect_none; [exact Hr|rewrite Hs; clear; lia|rewrite Hc; clear; lia].
  - destruct (GetCertificate_untouched serial w) as (Hr & Hc & Hs).
    apply effect_none; [exact Hr|rewrite Hs; clear; lia|rewrite Hc; clear; lia].
  - destruct (RevokeCertificate_untouched serial reason w) as (Hr & Hc & Hs).
    apply effect_none; [exact Hr|rewrite Hs; clear; lia|rewrite Hc; clear; lia].
Qed.

Lemma reachable_table_ok w : reachable ParseCSR w -> table_ok w.
Proof.
  induction 1 as [w [Hrows _] | w c _ IH].
  - unfold table_ok. rewrite Hrows. constructor.
  - apply (effect_table_ok w); [apply exec_effect|exact IH].
Qed.

Lemma reachable_ids_ok w : reachable ParseCSR w -> ids_ok w.
Proof.
  induction 1 as [w [Hrows _] | w c _ IH].
  - unfold ids_ok. rewrite Hrows. split; constructor.
  - apply (effect_ids_ok w); [apply exec_effect|exact IH].
Qed.

(** The clock never runs backwards. *)
Lemma exec_clock c w : clock w <= clock (exec ParseCSR c w).
Proof. destruct (exec_effect c w); assumption. Qed.

Lemma reachable_run cs w :
  reachable ParseCSR w -> reachable ParseCSR (run ParseCSR cs w).
Proof.
  revert w. induction cs as [|c cs IH]; intros w H; [exact H|].
  cbn. apply IH. apply reachable_exec. exact H.
Qed.

End Reachable.

Lemma CreateEnrollment_Ok
  (ParseCSR : string -> result x509.CertificateRequest)
  cn org email csrPEM w enrollment w' :
  service.CreateEnrollment ParseCSR cn org email csrPEM w = (Ok enrollment, w') ->
  Status enrollment = "pending" /\ rows w' = (rows w ++ [enrollment])%list /\
  ID enrollment = pretty (N.succ (id_seq w)) /\ pool w' = tl (pool w).
Proof.
  rewrite CreateEnrollment_eval.
  destruct (ParseCSR csrPEM) as [csr|e]; [|discriminate]. cbv zeta.
  destruct (x509.CommonName (x509.Subject csr) =? cn)%string; [|discriminate].
  destruct (hd None (pool w)); [discriminate|].
  intros H. injection H as <- <-. repeat split.
Qed.

(** ** Identifiers *)


Lemma select_by_id_last id rs r :
  (forall x, In x rs -> ID x <> id) -> ID r = id ->
  storage.select_by_id id (rs ++ [r]) = Some r.
Proof.
  intros H Hid. induction rs as [|x rs IH]; cbn.
  - apply String.eqb_eq in Hid. rewrite Hid. reflexivity.
  - destruct (ID x =? id)%string eqn:Hx.
    + apply String.eqb_eq in Hx. destruct (H x); [left; reflexivity|exact Hx].
    + apply IH. intros y Hy. apply H. right. exact Hy.
Qed.

Lemma NoDup_ID_inj (rs : list Enrollment) r r' :
  List.NoDup (map ID rs) -> In r rs -> In r' rs -> ID r = ID r' -> r = r'.
Proof.
  induction rs as [|x rs IH]; [intros _ []|].
  cbn [map]. intros Hnd Hr Hr' Hid. inversion Hnd as [|? ? Hnotin Hnd']; subst.
  destruct Hr as [<-|Hr], Hr' as [<-|Hr'].
  - reflexivity.
  - destruct Hnotin. rewrite Hid. apply in_map, Hr'.
  - destruct Hnotin. rewrite <- Hid. apply in_map, Hr.
  - apply IH; assumption.
Qed.

(** In a reachable world an id names one row. *)
Lemma id_names_one_row
  (ParseCSR : string -> result x509.CertificateRequest) w r r' :
  reachable ParseCSR w -> In r (rows w) -> In r' (rows w) -> ID r = ID r' ->
  r = r'.
Proof.
  intros Hreach Hr Hr' Hid. apply reachable_ids_ok in Hreach as [_ Hnodup].
  apply NoDup_ListNoDup in Hnodup.
  apply (NoDup_ID_inj (rows w)); assumption.
Qed.

(** The record [CreateEnrollment] returns can be read back by its id. *)
Lemma created_enrollment_is_found
  (ParseCSR : string -> result x509.CertificateRequest)
  cn org email csrPEM w enrollment w' :
  reachable ParseCSR w ->
  service.CreateEnrollment ParseCSR cn org email csrPEM w = (Ok enrollment, w') ->
  served w' ->
  fst (service.GetEnrollment (ID enrollment) w') = Ok enrollment.
Proof.
  intros Hreach H Hserved. apply CreateEnrollment_Ok in H.
  destruct H as (_ & Hrows & Hid & _).
  unfold service.GetEnrollment. rewrite GetByID_eval. cbn [fst].
  red in Hserved. rewrite Hserved, Hrows.
  rewrite select_by_id_last; [reflexivity| |reflexivity].
  apply reachable_ids_ok in Hreach as [Hall _].
  intros x Hx Heq.
  pose proof (proj1 (List.Forall_forall _ _) Hall x Hx) as (k & Hk & Hxk).
  rewrite Hid, Hxk in Heq. apply (inj pretty) in Heq. clear - Hk Heq. lia.
Qed.

(** ** Approval *)

(** C6. A successful [ApproveEnrollment id approvedBy] found the record
    [pending]; afterwards the repository holds it with status [approved],
    [approved_by] set to [approvedBy] and [updated_at] set to the reading of
    the clock taken by the call, which is not before the former
    [updated_at] and is after it when the clock has moved; the other
    columns are as they were.  The call sends the repository one read and
    one write and sends nothing to the CA service. *)
Theorem ApproveEnrollment_commits
  (ParseCSR : string -> result x509.CertificateRequest)
  (id approvedBy : string) (w w' : World) :
  reachable ParseCSR w ->
  service.ApproveEnrollment id approvedBy w = (Ok tt, w') ->
  exists before after,
    storage.select_by_id id (rows w) = Some before /\
    Status before = "pending" /\
    storage.select_by_id id (rows w') = Some after /\
    rows w' = storage.update_rows after (rows w) /\
    Status after = "approved" /\
    ApprovedBy after = Some approvedBy /\
    RejectedBy after = None /\ RejectReason after = None /\
    UpdatedAt after = clock w' /\
    UpdatedAt before <= UpdatedAt after /\
    (0 < hd 0 (ticks w) -> UpdatedAt before < UpdatedAt after) /\
    ID after = ID before /\ CommonName after = CommonName before /\
    Organization after = Organization before /\ Email after = Email before /\
    CSR after = CSR before /\ CreatedAt after = CreatedAt before /\
    ca w' = ca w /\
    trace w' = (EvLog "Enrollment queued for CA signing"
                :: EvSQL (UpdateByID id)
                :: EvLog "Approving enrollment"
                :: EvSQL (SelectByID id) :: trace w).
Proof.
  intros Hreach H.
  apply (transition_Ok id (steps.Approve approvedBy)) in H.
  destruct H as (before & _ & _ & Hsel & Hpending & Hrows & _ & Hclock & _ & Hca & Htrace).
  apply reachable_table_ok in Hreach.
  destruct (select_by_id_Some _ _ _ Hsel) as [Hin Hid].
  pose proof (proj1 (List.Forall_forall _ _) Hreach before Hin) as Hrow.
  destruct Hrow as (_ & (_ & Hr & Hrr) & _ & Hstamp).
  assert (RejectedBy before = None) as Hnor.
  { apply not_non_empty. rewrite Hr, Hpending. discriminate. }
  assert (RejectReason before = None) as Hnorr.
  { apply not_non_empty. rewrite Hrr, Hpending. discriminate. }
  exists before, (service.with_approval approvedBy (clock w') before).
  rewrite Hclock. cbn [decided] in Hrows.
  split; [exact Hsel|]. split; [exact Hpending|].
  split.
  { rewrite Hrows.
    rewrite (select_by_id_update id (rows w) before _ Hsel); [reflexivity|assumption]. }
  split; [exact Hrows|].
  cbn [service.with_approval Status ApprovedBy RejectedBy RejectReason UpdatedAt
       ID CommonName Organization Email CSR CreatedAt].
  repeat split; try assumption.
  - clear - Hstamp. lia.
  - clear - Hstamp. lia.
Qed.

Lemma ApproveEnrollment_commits_witness :
  exists before after,
    storage.select_by_id "1" (rows two_pending) = Some before /\
    Status before = "pending" /\
    storage.select_by_id "1" (rows approved_world) = Some after /\
    rows approved_world = storage.update_rows after (rows two_pending) /\
    Status after = "approved" /\
    ApprovedBy after = Some "alice" /\
    RejectedBy after = None /\ RejectReason after = None /\
    UpdatedAt after = clock approved_world /\
    UpdatedAt before <= UpdatedAt after /\
    (0 < hd 0 (ticks two_pending) -> UpdatedAt before < UpdatedAt after) /\
    ID after = ID before /\ CommonName after = CommonName before /\
    Organization after = Organization before /\ Email after = Email before /\
    CSR after = CSR before /\ CreatedAt after = CreatedAt before /\
    ca approved_world = ca two_pending /\
    trace approved_world = (EvLog "Enrollment queued for CA signing"
                :: EvSQL (UpdateByID "1")
                :: EvLog "Approving enrollment"
                :: EvSQL (SelectByID "1") :: trace two_pending).
Proof.
  apply (ApproveEnrollment_commits sample_ParseCSR "1" "alice"
           two_pending approved_world).
  - exact (reachable_run sample_ParseCSR sample_history first_world
             (reachable_initial sample_ParseCSR first_world
                (conj eq_refl eq_refl))).
  - reflexivity.
Defined.

(** ** The actor fields *)


Lemma rejected_world_reachable : reachable sample_ParseCSR rejected_world.
Proof.
  exact (reachable_run sample_ParseCSR
           (sample_history ++
            [CallApproveEnrollment "1" "alice";
             CallRejectEnrollment "2" "bob" "duplicate request"])
           first_world
           (reachable_initial sample_ParseCSR first_world (conj eq_refl eq_refl))).
Defined.


(** The actor is stored as it was passed: an approval by the empty string
    sets [approved_by] to a pointer to the empty string. *)
Example approval_by_empty_actor :
  option_map ApprovedBy
    (storage.select_by_id "1"
       (rows (snd (service.ApproveEnrollment "1" "" two_pending))))
  = Some (Some "").
Proof. reflexivity. Qed.

(** ** Statuses *)



(** ** Not found *)

Lemma transition_NotFound id v w cause :
  fst (storage.GetByID id w) = Err cause <->
  fst (steps.transition id v w) = Err (NotFound cause).
Proof.
  rewrite transition_eval, GetByID_eval. cbv zeta. cbn [fst].
  destruct (hd None (pool w)) as [e|].
  { cbn [fst]. unfold NotFound. split; intros H; injection H as <-; reflexivity. }
  destruct (storage.select_by_id id (rows w)) as [r|].
  2:{ cbn [fst]. unfold NotFound. split; intros H; injection H as <-; reflexivity. }
  destruct (Status r =? "pending")%string.
  2:{ cbn [fst]. split; discriminate. }
  split; [discriminate|].
  destruct v as [approvedBy | rejectedBy reason]; cbn [steps.commit];
    [rewrite commit_approval_eval | rewrite commit_rejection_eval]; cbv zeta;
    destruct (hd None (pool _)); discriminate.
Qed.

Lemma GetByID_fails id w cause :
  fst (storage.GetByID id w) = Err cause <->
  (exists e, hd None (pool w) = Some e /\
             cause = Errorf_w "failed to get enrollment: " e) \/
  (served w /\ storage.select_by_id id (rows w) = None /\
   cause = Errorf_w "failed to get enrollment: " ErrNoRows).
Proof.
  rewrite GetByID_eval. cbn [fst]. unfold served.
  destruct (hd None (pool w)) as [e|].
  - split.
    + intros H. injection H as <-. left. exists e. split; reflexivity.
    + intros [(e' & He & ->)|(H & _)]; [|discriminate].
      injection He as ->. reflexivity.
  - destruct (storage.select_by_id id (rows w)) as [r|].
    + split; [discriminate|].
      intros [(e' & He & _)|(_ & H & _)]; discriminate.
    + split.
      * intros H. injection H as <-. right. repeat split.
      * intros [(e' & He & _)|(_ & _ & ->)]; [discriminate|reflexivity].
Qed.

(** C8, as the code has it.  [ApproveEnrollment] and [RejectEnrollment]
    fail with the error "enrollment not found: ..." exactly when the read
    of the record fails, be it that the repository refused the statement
    or that it served it and no row has the id; the error wraps the cause
    of the failure, which is [pgx.ErrNoRows] under the text of [GetByID]
    when no row has the id and the refusal of the repository otherwise. *)
Theorem read_failure_is_reported_not_found
  (id approvedBy rejectedBy reason : string) (w : World) (cause : error) :
  (fst (storage.GetByID id w) = Err cause <->
   fst (service.ApproveEnrollment id approvedBy w) = Err (NotFound cause)) /\
  (fst (storage.GetByID id w) = Err cause <->
   fst (service.RejectEnrollment id rejectedBy reason w) = Err (NotFound cause)) /\
  (fst (storage.GetByID id w) = Err cause <->
   (exists e, hd None (pool w) = Some e /\
              cause = Errorf_w "failed to get enrollment: " e) \/
   (served w /\ storage.select_by_id id (rows w) = None /\
    cause = Errorf_w "failed to get enrollment: " ErrNoRows)) /\
  reported_NotFound (NotFound cause) = true.
Proof.
  split; [|split; [|split]].
  - apply (transition_NotFound id (steps.Approve approvedBy)).
  - apply (transition_NotFound id (steps.Reject rejectedBy reason)).
  - apply GetByID_fails.
  - reflexivity.
Qed.

(** The claim of C8 fails: the record with id 1 exists, the repository
    refuses the read, and the approval and the rejection are answered
    "enrollment not found". *)
Lemma storage_failure_reported_as_not_found :
  let w := set_pool [Some (ErrOutside "connection refused")] two_pending in
  let refusal :=
    NotFound (Errorf_w "failed to get enrollment: "
                (ErrOutside "connection refused")) in
  storage.select_by_id "1" (rows w) <> None /\
  fst (service.ApproveEnrollment "1" "alice" w) = Err refusal /\
  fst (service.RejectEnrollment "1" "bob" "duplicate request" w) = Err refusal /\
  reported_NotFound refusal = true /\
  Error refusal
  = "enrollment not found: failed to get enrollment: connection refused".
Proof. repeat split; discriminate. Qed.

(** ** Two transitions of one record *)

Lemma transition_pending id v w r :
  storage.select_by_id id (rows w) = Some r -> Status r = "pending" ->
  served w -> hd None (tl (pool w)) = None ->
  exists w',
    steps.transition id v w = (Ok tt, w') /\ pool w' = tl (tl (pool w)).
Proof.
  unfold served. intros Hsel Hst Hp1 Hp2.
  rewrite transition_eval. cbv zeta. rewrite Hp1, Hsel.
  apply String.eqb_eq in Hst. rewrite Hst.
  destruct v as [approvedBy | rejectedBy reason]; cbn [steps.commit];
    [rewrite commit_approval_eval | rewrite commit_rejection_eval];
    wsimpl; rewrite Hp2; eexists; split; reflexivity.
Qed.


(** X14. Two transitions of a pending record whose reads come before their
    writes both succeed when the repository serves them, and the record
    ends with the status of the one that wrote last. *)
Lemma interleaved_Ok id v1 v2 w r :
  storage.select_by_id id (rows w) = Some r -> Status r = "pending" ->
  served w -> hd None (tl (pool w)) = None ->
  hd None (tl (tl (pool w))) = None ->
  hd None (tl (tl (tl (pool w)))) = None ->
  exists w',
    steps.interleaved id v1 v2 w = (Ok tt, w') /\
    option_map Status (storage.select_by_id id (rows w'))
    = Some (verdict_status v2).
Proof.
  unfold served. intros Hsel Hst Hp1 Hp2 Hp3 Hp4.
  destruct (select_by_id_Some _ _ _ Hsel) as [_ Hid].
  apply String.eqb_eq in Hst.
  unfold steps.interleaved. unfold bind at 1. rewrite check_pending_eval.
  rewrite Hp1, Hsel, Hst. unfold bind at 1. rewrite check_pending_eval.
  wsimpl. rewrite Hp2, Hsel, Hst. unfold bind.
  destruct (steps.commit v1 r _) as [[[]|e] w3] eqn:H1.
  2:{ exfalso. revert H1.
      destruct v1; cbn [steps.commit];
        [rewrite commit_approval_eval | rewrite commit_rejection_eval];
        wsimpl; rewrite Hp3; discriminate. }
  apply commit_Ok in H1. destruct H1 as (_ & Hrows3 & _ & _ & Hpool3 & _).
  wsimpl_in Hpool3. wsimpl_in Hrows3.
  destruct (steps.commit v2 r w3) as [[[]|e] w4] eqn:H2.
  2:{ exfalso. revert H2.
      destruct v2; cbn [steps.commit];
        [rewrite commit_approval_eval | rewrite commit_rejection_eval];
        cbv zeta; rewrite Hpool3, Hp4; discriminate. }
  exists w4. split; [reflexivity|].
  apply commit_Ok in H2. destruct H2 as (_ & Hrows4 & _).
  rewrite Hrows4, Hrows3.
  assert (storage.select_by_id id
            (storage.update_rows
               (decided v1 (clock w + hd 0 (ticks w)) r) (rows w))
          = Some (storage.updated_row
                    (decided v1 (clock w + hd 0 (ticks w)) r) r)) as Hsel3.
  { apply select_by_id_update; [exact Hsel|]. rewrite decided_ID. exact Hid. }
  rewrite (select_by_id_update id _ _ _ Hsel3).
  - cbn. rewrite decided_Status. reflexivity.
  - rewrite decided_ID. exact Hid.
Qed.




(** ** The handoff to the CA *)

(** C4, as the code has it.  The service has no issuance operation; what
    the repository has of the handoff is [CAClient.SignCSR].  Whether the
    CA fails or succeeds, [SignCSR] sends no statement to the repository
    and leaves every enrollment as it was: with a failing CA it returns
    the failure under "failed to sign CSR: ", with a succeeding CA it
    returns the PEM of the certificate (the serial is logged, not
    recorded), and an approved record stays [approved]. *)
Theorem SignCSR_leaves_enrollments
  (csrPEM : string) (validityDays : Z) (w : World) :
  let out := grpc.SignCSR csrPEM validityDays w in
  rows (snd out) = rows w /\
  id_seq (snd out) = id_seq w /\
  pool (snd out) = pool w /\
  (forall e, next_reply w = Err e ->
             fst out = Err (Errorf_w "failed to sign CSR: " e)) /\
  (forall resp, next_reply w = Ok resp ->
                fst out = Ok (capb.CertificatePem resp)) /\
  (forall s, In (EvSQL s) (trace (snd out)) -> In (EvSQL s) (trace w)).
Proof.
  cbv zeta. rewrite SignCSR_eval. cbv zeta.
  destruct (next_reply w) as [resp|e]; wsimpl; repeat split;
    try discriminate; try (intros ? H; injection H as <-; reflexivity).
  - intros s [H|[H|[H|H]]]; try discriminate; exact H.
  - intros s [H|[H|H]]; try discriminate; exact H.
Qed.

(** The claim of C4 fails.  Record 1 is approved.  A signing that meets a
    CA timing out leaves it [approved], not [issuance_failed]; a second
    signing that succeeds returns the certificate and leaves the record
    [approved], not [issued]. *)
Lemma issuance_is_not_recorded :
  let failed := grpc.SignCSR "CN=svc.internal" 365 ca_world in
  let retried := grpc.SignCSR "CN=svc.internal" 365 (snd failed) in
  option_map Status (storage.select_by_id "1" (rows ca_world)) = Some "approved" /\
  fst failed = Err (Errorf_w "failed to sign CSR: "
                      (ErrOutside "rpc error: code = DeadlineExceeded")) /\
  option_map Status (storage.select_by_id "1" (rows (snd failed)))
  <> Some "issuance_failed" /\
  fst retried = Ok "-----BEGIN CERTIFICATE-----" /\
  option_map Status (storage.select_by_id "1" (rows (snd retried)))
  <> Some "issued" /\
  option_map Status (storage.select_by_id "1" (rows (snd retried)))
  = Some "approved".
Proof. repeat split; discriminate. Qed.

(** ** Listing *)

#[local] Instance created_desc_total : Total storage.created_desc.
Proof. intros a b. unfold storage.created_desc. lia. Qed.

#[local] Instance created_desc_trans : Transitive storage.created_desc.
Proof. intros a b c. unfold storage.created_desc. lia. Qed.

Lemma select_list_page status rs :
  storage.select_list status rs
  = take storage.page_size (merge_sort storage.created_desc (storage.where_status status rs)).
Proof. reflexivity. Qed.

Lemma select_list_sorted status rs :
  StronglySorted storage.created_desc (storage.select_list status rs).
Proof.
  rewrite select_list_page.
  apply StronglySorted_app_1_l
    with (l2 := drop storage.page_size
                  (merge_sort storage.created_desc (storage.where_status status rs))).
  rewrite take_drop. apply StronglySorted_merge_sort; apply _.
Qed.

Lemma select_list_In status rs r :
  In r (storage.select_list status rs) -> In r (storage.where_status status rs).
Proof.
  rewrite select_list_page. intros H.
  apply (Permutation_in r (merge_sort_Permutation storage.created_desc _)).
  rewrite <- (take_drop storage.page_size). apply in_or_app. left. exact H.
Qed.

Lemma select_list_length status rs :
  length (storage.select_list status rs)
  = Nat.min storage.page_size (length (storage.where_status status rs)).
Proof.
  rewrite select_list_page, length_take.
  rewrite (Permutation_length (merge_sort_Permutation _ _)). reflexivity.
Qed.

Lemma where_status_In status rs r :
  In r (storage.where_status status rs) ->
  In r rs /\ (status <> "" -> Status r = status).
Proof.
  unfold storage.where_status. destruct (status =? "")%string eqn:He.
  - apply String.eqb_eq in He. intros H. split; [exact H|]. intros Hne. contradiction.
  - intros H. apply filter_In in H. destruct H as [Hin Hs].
    split; [exact Hin|]. intros _. apply String.eqb_eq, Hs.
Qed.

Lemma where_status_filter status rs :
  storage.where_status status rs
  = List.filter (fun r => (status =? "")%string || (Status r =? status)%string) rs.
Proof.
  unfold storage.where_status. destruct (status =? "")%string; cbn [orb].
  - induction rs as [|r rs IH]; [reflexivity|]. cbn. rewrite <- IH. reflexivity.
  - reflexivity.
Qed.

Lemma read_rows_FetchAll page : read_rows FetchAll page = Ok page.
Proof.
  induction page as [|r page IH]; [reflexivity|]. cbn. rewrite IH. reflexivity.
Qed.

Lemma read_rows_FetchBreaks n page :
  read_rows (FetchBreaks n) page = Ok (take n page).
Proof.
  revert n. induction page as [|r page IH]; intros [|n]; try reflexivity.
  cbn. rewrite IH. reflexivity.
Qed.

Lemma read_rows_ScanFails n err page :
  read_rows (ScanFails n err) page
  = if (n <? length page)%nat
    then Err (Errorf_w "failed to scan enrollment: " err) else Ok page.
Proof.
  revert n. induction page as [|r page IH]; intros [|n]; try reflexivity.
  cbn [read_rows Nat.pred length]. rewrite IH.
  change (S n <? S (length page))%nat with (n <? length page)%nat.
  destruct (n <? length page)%nat; reflexivity.
Qed.

(** The loop returns the rows it has read: a prefix of the rows of the
    query. *)
Lemma read_rows_Ok f page l :
  read_rows f page = Ok l -> exists rest, page = (l ++ rest)%list.
Proof.
  destruct f as [|n|n err].
  - rewrite read_rows_FetchAll. intros H. injection H as <-.
    exists []. rewrite app_nil_r. reflexivity.
  - rewrite read_rows_FetchBreaks. intros H. injection H as <-.
    exists (drop n page). rewrite take_drop. reflexivity.
  - rewrite read_rows_ScanFails. destruct (n <? length page)%nat; [discriminate|].
    intros H. injection H as <-. exists []. rewrite app_nil_r. reflexivity.
Qed.

(** What a successful [List] found. *)
Lemma List_Ok status w l :
  fst (storage.List status w) = Ok l ->
  served w /\
  read_rows (hd FetchAll (fetches w)) (storage.select_list status (rows w)) = Ok l.
Proof.
  unfold served. rewrite List_eval. cbv zeta.
  destruct (hd None (pool w)); [discriminate|]. cbn [fst].
  intros H. split; [reflexivity|exact H].
Qed.

Lemma List_rows status w : rows (snd (storage.List status w)) = rows w.
Proof.
  rewrite List_eval. cbv zeta. destruct (hd None (pool w)); reflexivity.
Qed.

(** A prefix of the page of a query: the latest of the rows that match. *)
Lemma page_prefix status rs l rest0 :
  storage.select_list status rs = (l ++ rest0)%list ->
  StronglySorted (fun a b => CreatedAt b <= CreatedAt a) l /\
  (length l <= 100)%nat /\
  (forall r, In r l -> In r rs) /\
  (status <> "" -> forall r, In r l -> Status r = status) /\
  exists rest,
    List.filter (fun r => (status =? "")%string || (Status r =? status)%string) rs
    ≡ₚ (l ++ rest)%list /\
    forall a b, In a l -> In b rest -> CreatedAt b <= CreatedAt a.
Proof.
  intros Hpage.
  pose proof (select_list_sorted status rs) as Hsorted.
  assert (forall r, In r l -> In r (storage.select_list status rs)) as Hin.
  { intros r Hr. rewrite Hpage. apply in_or_app. left. exact Hr. }
  split; [rewrite Hpage in Hsorted; apply (StronglySorted_app_1_l _ _ _ Hsorted)|].
  split.
  { pose proof (f_equal length Hpage) as Hlen.
    rewrite select_list_page, length_take, length_app in Hlen.
    unfold storage.page_size in Hlen. clear - Hlen. lia. }
  split; [intros r Hr; apply (where_status_In status), select_list_In, Hin, Hr|].
  split.
  { intros Hne r Hr.
    apply (where_status_In status rs); [apply select_list_In, Hin, Hr|exact Hne]. }
  rewrite <- where_status_filter.
  set (sorted := merge_sort storage.created_desc (storage.where_status status rs)).
  exists (rest0 ++ drop storage.page_size sorted)%list.
  assert (sorted = (l ++ rest0 ++ drop storage.page_size sorted)%list) as Hsplit.
  { rewrite app_assoc, <- Hpage, select_list_page. symmetry. apply take_drop. }
  split.
  - rewrite <- Hsplit. symmetry. apply merge_sort_Permutation.
  - intros a b Ha Hb.
    assert (StronglySorted storage.created_desc sorted) as Hs
      by (apply StronglySorted_merge_sort; apply _).
    rewrite Hsplit in Hs.
    apply (StronglySorted_app_1_elem_of _ _ _ a b Hs);
      apply list_elem_of_In; assumption.
Qed.

(** C9. Whatever [List] returns is ordered by creation time, latest first,
    has at most the hundred records of a page, is made of rows of the
    table and, when the status filter is not empty, of rows with exactly
    that status; the rows that match the filter are those returned and a
    rest, none of which was created after a returned one.  When the
    repository serves the query and every row comes back, [List] does
    return, and a hundred records or all that match if they are fewer.
    The table is as it was. *)
Theorem List_page (status : string) (w : World) :
  let out := fst (storage.List status w) in
  let matching :=
    List.filter (fun r => (status =? "")%string || (Status r =? status)%string)
                (rows w) in
  storage.page_size = 100%nat /\
  rows (snd (storage.List status w)) = rows w /\
  (forall l, out = Ok l ->
     StronglySorted (fun a b => CreatedAt b <= CreatedAt a) l /\
     (length l <= 100)%nat /\
     (forall r, In r l -> In r (rows w)) /\
     (status <> "" -> forall r, In r l -> Status r = status) /\
     exists rest,
       matching ≡ₚ (l ++ rest)%list /\
       forall a b, In a l -> In b rest -> CreatedAt b <= CreatedAt a) /\
  (served w -> hd FetchAll (fetches w) = FetchAll ->
   exists l, out = Ok l /\ length l = Nat.min 100 (length matching)).
Proof.
  cbv zeta. split; [reflexivity|]. split; [apply List_rows|]. split.
  - intros l Hl. apply List_Ok in Hl as [_ Hl].
    apply read_rows_Ok in Hl as [rest0 Hpage].
    apply (page_prefix status (rows w) l rest0), Hpage.
  - unfold served. intros Hp Hf. rewrite List_eval, Hp, Hf. cbv zeta. cbn [fst].
    rewrite read_rows_FetchAll. eexists. split; [reflexivity|].
    rewrite select_list_length, where_status_filter. reflexivity.
Qed.

(** The page of [two_pending]: its two rows, the latest first. *)
Lemma List_page_witness :
  exists l,
    fst (storage.List "pending" two_pending) = Ok l /\
    length l = 2%nat /\
    map ID l = ["2"; "1"].
Proof.
  destruct (List_page "pending" two_pending) as (_ & _ & _ & Hret).
  destruct (Hret eq_refl eq_refl) as (l & Hl & Hlen).
  exists l. split; [exact Hl|]. split; [exact Hlen|].
  vm_compute in Hl. injection Hl as <-. reflexivity.
Defined.

(** A served [List] whose rows all come back returns the page. *)
Lemma List_served status w :
  served w -> hd FetchAll (fetches w) = FetchAll ->
  fst (storage.List status w) = Ok (storage.select_list status (rows w)).
Proof.
  unfold served. intros H Hf. rewrite List_eval, H, Hf. cbv zeta. cbn [fst].
  apply read_rows_FetchAll.
Qed.

(** * Further properties of the code *)

(** ** package storage *)

Lemma select_by_id_None_inv id rs :
  storage.select_by_id id rs = None -> forall r, In r rs -> ID r <> id.
Proof.
  unfold storage.select_by_id. intros H r Hr Hid.
  pose proof (find_none _ _ H r Hr) as Hf. cbn in Hf.
  apply String.eqb_neq in Hf. contradiction.
Qed.

Lemma update_rows_missing e rs :
  storage.select_by_id (ID e) rs = None -> storage.update_rows e rs = rs.
Proof.
  intros H. pose proof (select_by_id_None_inv _ _ H) as Hne.
  unfold storage.update_rows. rewrite <- (map_id rs) at 2.
  apply map_ext_in. intros r Hr.
  apply Hne in Hr. apply String.eqb_neq in Hr. rewrite Hr. reflexivity.
Qed.

(** X1. [Update] of a record whose id no row has: the statement is served, no
    row is affected, and [Update] returns without an error all the same;
    the table is as it was. *)
Theorem Update_of_missing_id_is_silent (e : Enrollment) (w : World) :
  served w -> storage.select_by_id (ID e) (rows w) = None ->
  fst (storage.Update e w) = Ok tt /\
  rows (snd (storage.Update e w)) = rows w /\
  id_seq (snd (storage.Update e w)) = id_seq w.
Proof.
  unfold served. intros Hp Hsel. rewrite Update_eval. cbv zeta. rewrite Hp.
  wsimpl. rewrite (update_rows_missing _ _ Hsel). repeat split.
Qed.

Lemma Update_of_missing_id_is_silent_witness :
  let e := mkEnrollment "7" "ghost" "" "" "" "approved" (Some "alice")
             None None 0 2000 in
  fst (storage.Update e two_pending) = Ok tt /\
  rows (snd (storage.Update e two_pending)) = rows two_pending /\
  id_seq (snd (storage.Update e two_pending)) = id_seq two_pending.
Proof.
  apply (Update_of_missing_id_is_silent
           (mkEnrollment "7" "ghost" "" "" "" "approved" (Some "alice")
              None None 0 2000) two_pending); reflexivity.
Defined.

Lemma update_rows_identity e rs :
  map identity_of (storage.update_rows e rs) = map identity_of rs.
Proof.
  unfold storage.update_rows. rewrite map_map. apply map_ext.
  intros r. destruct (ID r =? ID e)%string; reflexivity.
Qed.

Lemma update_rows_nth e rs i r :
  nth_error rs i = Some r ->
  nth_error (storage.update_rows e rs) i
  = Some (if (ID r =? ID e)%string then storage.updated_row e r else r).
Proof.
  intros H. unfold storage.update_rows. rewrite nth_error_map, H. reflexivity.
Qed.

Lemma Update_rows e w :
  rows (snd (storage.Update e w)) = rows w \/
  (fst (storage.Update e w) = Ok tt /\
   rows (snd (storage.Update e w)) = storage.update_rows e (rows w)).
Proof.
  rewrite Update_eval. cbv zeta.
  destruct (hd None (pool w)); [left|right]; repeat split.
Qed.

(** X2. Whatever the repository answers, [Update] keeps the number of rows,
    every row of another id where it was, and, in the rows of its id, the
    id, the claimed attributes, the CSR and the creation time: it sets the
    status, the three decision columns and the update time, nothing
    else. *)
Theorem Update_frame (e : Enrollment) (w : World) :
  let w' := snd (storage.Update e w) in
  length (rows w') = length (rows w) /\
  map identity_of (rows w') = map identity_of (rows w) /\
  (forall i r, nth_error (rows w) i = Some r -> ID r <> ID e ->
               nth_error (rows w') i = Some r) /\
  (forall i r, nth_error (rows w) i = Some r -> ID r = ID e ->
               nth_error (rows w') i = Some r \/
               nth_error (rows w') i = Some (storage.updated_row e r)) /\
  id_seq w' = id_seq w.
Proof.
  cbv zeta.
  assert (id_seq (snd (storage.Update e w)) = id_seq w) as Hseq.
  { rewrite Update_eval. cbv zeta. destruct (hd None (pool w)); reflexivity. }
  destruct (Update_rows e w) as [H|[_ H]]; rewrite H.
  - repeat split; auto.
  - split; [unfold storage.update_rows; apply length_map|].
    split; [apply update_rows_identity|].
    split; [|split; [|exact Hseq]].
    + intros i r Hi Hne. rewrite (update_rows_nth _ _ _ _ Hi).
      apply String.eqb_neq in Hne. rewrite Hne. reflexivity.
    + intros i r Hi Heq. right. rewrite (update_rows_nth _ _ _ _ Hi).
      apply String.eqb_eq in Heq. rewrite Heq. reflexivity.
Qed.






(** X5. In every world reached by the operations, the ids of the rows are the
    decimal numerals of values the sequence has given, and no two rows
    have the same id. *)
Theorem ids_come_from_the_sequence
  (ParseCSR : string -> result x509.CertificateRequest) (w : World) :
  reachable ParseCSR w ->
  List.NoDup (map ID (rows w)) /\
  (forall r, In r (rows w) ->
             exists k, 1 <= k <= id_seq w /\ ID r = pretty k) /\
  (forall r r', In r (rows w) -> In r' (rows w) -> ID r = ID r' -> r = r').
Proof.
  intros Hreach. pose proof (reachable_ids_ok _ _ Hreach) as [Hall Hnodup].
  apply NoDup_ListNoDup in Hnodup. split; [exact Hnodup|]. split.
  - apply List.Forall_forall, Hall.
  - intros r r'. apply NoDup_ID_inj, Hnodup.
Qed.

Lemma ids_come_from_the_sequence_witness :
  List.NoDup (map ID (rows rejected_world)) /\
  (forall r, In r (rows rejected_world) ->
             exists k, 1 <= k <= id_seq rejected_world /\ ID r = pretty k) /\
  (forall r r', In r (rows rejected_world) -> In r' (rows rejected_world) ->
                ID r = ID r' -> r = r').
Proof.
  apply (ids_come_from_the_sequence sample_ParseCSR rejected_world).
  exact rejected_world_reachable.
Defined.

(** X6. [List] never asks the rows for their error.  When the repository
    serves the query and the stream of rows breaks after [n] of them,
    [List] returns without an error the rows it has read: the [n] latest
    of the rows that match, or the whole page if it had come through.
    When the row of index [n] does not scan, [List] fails with that error
    under "failed to scan enrollment: " and returns no row, provided the
    page has such a row; otherwise it returns the page. *)
Theorem List_returns_what_it_read (status : string) (w : World) :
  served w ->
  let out := fst (storage.List status w) in
  let matching :=
    List.filter (fun r => (status =? "")%string || (Status r =? status)%string)
                (rows w) in
  let page := Nat.min 100 (length matching) in
  (forall n, hd FetchAll (fetches w) = FetchBreaks n ->
     exists l rest,
       out = Ok l /\ length l = Nat.min n page /\
       matching ≡ₚ (l ++ rest)%list /\
       forall a b, In a l -> In b rest -> CreatedAt b <= CreatedAt a) /\
  (forall n err, hd FetchAll (fetches w) = ScanFails n err ->
     ((n < page)%nat ->
      out = Err (Errorf_w "failed to scan enrollment: " err)) /\
     ((page <= n)%nat -> exists l, out = Ok l /\ length l = page)).
Proof.
  unfold served. intros Hp. cbv zeta. rewrite List_eval, Hp. cbv zeta. cbn [fst].
  pose proof (select_list_length status (rows w)) as Hlen.
  rewrite where_status_filter in Hlen. unfold storage.page_size in Hlen.
  split.
  - intros n Hf. rewrite Hf, read_rows_FetchBreaks.
    set (page := storage.select_list status (rows w)) in *.
    destruct (page_prefix status (rows w) (take n page) (drop n page))
      as (_ & _ & _ & _ & rest & Hperm & Hnewer);
      [symmetry; apply take_drop|].
    exists (take n page), rest. split; [reflexivity|].
    split; [rewrite length_take, Hlen; reflexivity|].
    split; [exact Hperm|exact Hnewer].
  - intros n err Hf. rewrite Hf, read_rows_ScanFails, Hlen. split.
    + intros Hn. apply Nat.ltb_lt in Hn. rewrite Hn. reflexivity.
    + intros Hn. apply Nat.ltb_ge in Hn. rewrite Hn.
      eexists. split; [reflexivity|exact Hlen].
Qed.

Lemma List_returns_what_it_read_witness :
  let w := set_fetches [FetchBreaks 1] two_pending in
  let out := fst (storage.List "pending" w) in
  let matching :=
    List.filter (fun r => ("pending" =? "")%string || (Status r =? "pending")%string)
                (rows w) in
  let page := Nat.min 100 (length matching) in
  (forall n, hd FetchAll (fetches w) = FetchBreaks n ->
     exists l rest,
       out = Ok l /\ length l = Nat.min n page /\
       matching ≡ₚ (l ++ rest)%list /\
       forall a b, In a l -> In b rest -> CreatedAt b <= CreatedAt a) /\
  (forall n err, hd FetchAll (fetches w) = ScanFails n err ->
     ((n < page)%nat ->
      out = Err (Errorf_w "failed to scan enrollment: " err)) /\
     ((page <= n)%nat -> exists l, out = Ok l /\ length l = page)).
Proof.
  apply (List_returns_what_it_read "pending"
           (set_fetches [FetchBreaks 1] two_pending)).
  reflexivity.
Defined.

(** One row of two comes back, and no error with it. *)
Example List_of_a_broken_stream :
  fst (storage.List "" (set_fetches [FetchBreaks 1] two_pending))
  = Ok [ mkEnrollment "2" "api.example.com" "Web" "web@example.com"
           "CN=api.example.com" "pending" None None None 1012 1013 ].
Proof. reflexivity. Qed.

(** ** package service *)



(** The refused insert of [refusing_world] has used the id 3: the next
    record is given the id 4. *)
Example refused_insert_burns_an_id :
  let w' := snd (service.CreateEnrollment sample_ParseCSR "svc.internal"
                   "Ops" "ops@example.com" "CN=svc.internal" refusing_world) in
  rows w' = rows two_pending /\ id_seq two_pending = 2 /\ id_seq w' = 3 /\
  option_map ID
    (last (rows (snd (service.CreateEnrollment sample_ParseCSR "svc.internal"
                        "Ops" "ops@example.com" "CN=svc.internal" w'))))
  = Some "4".
Proof. vm_compute. repeat split. Qed.

(** X8. A successful [RejectEnrollment id rejectedBy reason] found the record
    [pending]; afterwards the repository holds it with status [rejected],
    [rejected_by] and [reject_reason] set to the arguments, no approver,
    and [updated_at] set to the reading of the clock taken by the call;
    the other columns are as they were, and nothing is sent to the CA. *)
Theorem RejectEnrollment_commits
  (ParseCSR : string -> result x509.CertificateRequest)
  (id rejectedBy reason : string) (w w' : World) :
  reachable ParseCSR w ->
  service.RejectEnrollment id rejectedBy reason w = (Ok tt, w') ->
  exists before after,
    storage.select_by_id id (rows w) = Some before /\
    Status before = "pending" /\
    storage.select_by_id id (rows w') = Some after /\
    rows w' = storage.update_rows after (rows w) /\
    Status after = "rejected" /\
    RejectedBy after = Some rejectedBy /\
    RejectReason after = Some reason /\
    ApprovedBy after = None /\
    UpdatedAt after = clock w' /\
    UpdatedAt before <= UpdatedAt after /\
    identity_of after = identity_of before /\
    ca w' = ca w /\
    trace w' = (EvSQL (UpdateByID id)
                :: EvLog "Rejecting enrollment"
                :: EvSQL (SelectByID id) :: trace w).
Proof.
  intros Hreach H.
  apply (transition_Ok id (steps.Reject rejectedBy reason)) in H.
  destruct H as (before & _ & _ & Hsel & Hpending & Hrows & _ & Hclock & _ & Hca & Htrace).
  apply reachable_table_ok in Hreach.
  destruct (select_by_id_Some _ _ _ Hsel) as [Hin Hid].
  pose proof (proj1 (List.Forall_forall _ _) Hreach before Hin) as Hrow.
  destruct Hrow as (_ & (Ha & _ & _) & _ & Hstamp).
  assert (ApprovedBy before = None) as Hnoa.
  { apply not_non_empty. rewrite Ha, Hpending. intros [H|[H|H]]; discriminate. }
  exists before, (service.with_rejection rejectedBy reason (clock w') before).
  rewrite Hclock. cbn [decided] in Hrows.
  split; [exact Hsel|]. split; [exact Hpending|].
  split.
  { rewrite Hrows.
    rewrite (select_by_id_update id (rows w) before _ Hsel); [reflexivity|assumption]. }
  split; [exact Hrows|].
  cbn [service.with_rejection Status ApprovedBy RejectedBy RejectReason UpdatedAt].
  repeat split; try assumption.
  clear - Hstamp. lia.
Qed.

Lemma RejectEnrollment_commits_witness :
  exists before after,
    storage.select_by_id "2" (rows approved_world) = Some before /\
    Status before = "pending" /\
    storage.select_by_id "2" (rows rejected_world) = Some after /\
    rows rejected_world = storage.update_rows after (rows approved_world) /\
    Status after = "rejected" /\
    RejectedBy after = Some "bob" /\
    RejectReason after = Some "duplicate request" /\
    ApprovedBy after = None /\
    UpdatedAt after = clock rejected_world /\
    UpdatedAt before <= UpdatedAt after /\
    identity_of after = identity_of before /\
    ca rejected_world = ca approved_world /\
    trace rejected_world = (EvSQL (UpdateByID "2")
                :: EvLog "Rejecting enrollment"
                :: EvSQL (SelectByID "2") :: trace approved_world).
Proof.
  apply (RejectEnrollment_commits sample_ParseCSR "2" "bob" "duplicate request"
           approved_world rejected_world).
  - exact (reachable_run sample_ParseCSR
             (sample_history ++ [CallApproveEnrollment "1" "alice"])
             first_world
             (reachable_initial sample_ParseCSR first_world
                (conj eq_refl eq_refl))).
  - reflexivity.
Defined.

(** X9. A transition whose write the repository refuses commits nothing: it
    fails with the refusal wrapped twice with "failed to update
    enrollment: ", the table is as it was, the record is still pending,
    and the same or the other transition succeeds once the repository
    serves again. *)
Theorem refused_write_can_be_retried
  (id : string) (v v' : steps.Verdict) (w : World) (r : Enrollment)
  (refusal : error) :
  storage.select_by_id id (rows w) = Some r -> Status r = "pending" ->
  served w -> hd None (tl (pool w)) = Some refusal ->
  hd None (tl (tl (pool w))) = None -> hd None (tl (tl (tl (pool w)))) = None ->
  exists w1 w2,
    steps.transition id v w
    = (Err (Errorf_w "failed to update enrollment: "
              (Errorf_w "failed to update enrollment: " refusal)), w1) /\
    rows w1 = rows w /\
    steps.transition id v' w1 = (Ok tt, w2) /\
    option_map Status (storage.select_by_id id (rows w2))
    = Some (verdict_status v').
Proof.
  unfold served. intros Hsel Hst Hp1 Hp2 Hp3 Hp4.
  assert (exists w1,
            steps.transition id v w
            = (Err (Errorf_w "failed to update enrollment: "
                      (Errorf_w "failed to update enrollment: " refusal)), w1) /\
            rows w1 = rows w /\ pool w1 = tl (tl (pool w))) as (w1 & H1 & Hrows1 & Hpool1).
  { rewrite transition_eval. cbv zeta. rewrite Hp1, Hsel.
    pose proof Hst as Hst'. apply String.eqb_eq in Hst'. rewrite Hst'.
    destruct v as [approvedBy | rejectedBy reason]; cbn [steps.commit];
      [rewrite commit_approval_eval | rewrite commit_rejection_eval];
      wsimpl; rewrite Hp2; eexists; repeat split. }
  assert (storage.select_by_id id (rows w1) = Some r) as Hsel1
    by (rewrite Hrows1; exact Hsel).
  destruct (transition_pending id v' w1 r Hsel1 Hst) as (w2 & H2 & _).
  { unfold served. rewrite Hpool1. exact Hp3. }
  { rewrite Hpool1. exact Hp4. }
  exists w1, w2. split; [exact H1|]. split; [exact Hrows1|]. split; [exact H2|].
  apply transition_Ok in H2.
  destruct H2 as (r' & _ & _ & Hsel' & _ & Hrows2 & _).
  rewrite Hsel1 in Hsel'. injection Hsel' as <-.
  rewrite Hrows2, (select_by_id_update id (rows w1) r _ Hsel1).
  - cbn. rewrite decided_Status. reflexivity.
  - rewrite decided_ID. apply (select_by_id_Some _ _ _ Hsel).
Qed.

Lemma refused_write_can_be_retried_witness :
  let w := set_pool [None; Some (ErrOutside "connection reset")] two_pending in
  exists w1 w2,
    steps.transition "1" (steps.Approve "alice") w
    = (Err (Errorf_w "failed to update enrollment: "
              (Errorf_w "failed to update enrollment: "
                 (ErrOutside "connection reset"))), w1) /\
    rows w1 = rows w /\
    steps.transition "1" (steps.Reject "bob" "late") w1 = (Ok tt, w2) /\
    option_map Status (storage.select_by_id "1" (rows w2))
    = Some (verdict_status (steps.Reject "bob" "late")).
Proof.
  apply (refused_write_can_be_retried "1" (steps.Approve "alice")
           (steps.Reject "bob" "late")
           (set_pool [None; Some (ErrOutside "connection reset")] two_pending)
           (mkEnrollment "1" "svc.internal" "Ops" "ops@example.com"
              "CN=svc.internal" "pending" None None None 1005 1005)
           (ErrOutside "connection reset")); reflexivity.
Defined.

(** ** Histories *)

Lemma effect_identity w w' :
  table_effect w w' ->
  exists more, map identity_of (rows w') = (map identity_of (rows w) ++ more)%list.
Proof.
  intros [Hrows _ _ | e Hrows _ _ _ _ _ _ _ _ _ | v seen _ _ Hrows _ _].
  - exists []. rewrite Hrows, app_nil_r. reflexivity.
  - exists [identity_of e]. rewrite Hrows, map_app. reflexivity.
  - exists []. rewrite Hrows, update_rows_identity, app_nil_r. reflexivity.
Qed.

(** X10. No history of the operations deletes a row, moves one, or changes the
    id, the claimed common name, organization and email, the CSR or the
    creation time of a row: these columns of the table after the history
    are those before it, followed by those of the rows inserted since. *)
Theorem histories_keep_identity
  (ParseCSR : string -> result x509.CertificateRequest)
  (cs : list Call) (w : World) :
  exists more,
    map identity_of (rows (run ParseCSR cs w))
    = (map identity_of (rows w) ++ more)%list.
Proof.
  revert w. induction cs as [|c cs IH]; intros w.
  - exists []. cbn. rewrite app_nil_r. reflexivity.
  - cbn [run fold_left]. destruct (IH (exec ParseCSR c w)) as [more2 H2].
    destruct (effect_identity w _ (exec_effect ParseCSR c w)) as [more1 H1].
    exists (more1 ++ more2)%list. unfold run in H2.
    rewrite H2, H1, app_assoc. reflexivity.
Qed.

Lemma effect_keeps_decided w w' i r :
  table_effect w w' -> ids_ok w ->
  nth_error (rows w) i = Some r -> Status r <> "pending" ->
  nth_error (rows w') i = Some r.
Proof.
  intros [Hrows _ _ | e Hrows _ _ _ _ _ _ _ _ _ | v seen Hin Hs Hrows _ _]
         [_ Hnodup] Hi Hst; rewrite Hrows.
  - exact Hi.
  - rewrite nth_error_app1; [exact Hi|].
    apply nth_error_Some. rewrite Hi. discriminate.
  - rewrite (update_rows_nth _ _ _ _ Hi), decided_ID.
    destruct (ID r =? ID seen)%string eqn:Heq; [|reflexivity].
    apply String.eqb_eq in Heq. apply NoDup_ListNoDup in Hnodup.
    assert (r = seen) as ->.
    { apply (NoDup_ID_inj (rows w)); try assumption.
      apply nth_error_In with (n := i). exact Hi. }
    contradiction.
Qed.

(** X11. A decision is final.  Once the status of a row is not [pending], no
    history of the operations, whatever the repository and the CA answer,
    changes any column of the row: it stays in its place as it is. *)
Theorem decided_rows_are_final
  (ParseCSR : string -> result x509.CertificateRequest)
  (cs : list Call) (w : World) (i : nat) (r : Enrollment) :
  reachable ParseCSR w ->
  nth_error (rows w) i = Some r -> Status r <> "pending" ->
  nth_error (rows (run ParseCSR cs w)) i = Some r.
Proof.
  revert w. induction cs as [|c cs IH]; intros w Hreach Hi Hst; [exact Hi|].
  cbn [run fold_left]. apply IH.
  - apply reachable_exec, Hreach.
  - apply (effect_keeps_decided w); try assumption.
    + apply exec_effect.
    + apply (reachable_ids_ok ParseCSR), Hreach.
  - exact Hst.
Qed.

Lemma decided_rows_are_final_witness :
  let r := mkEnrollment "1" "svc.internal" "Ops" "ops@example.com"
             "CN=svc.internal" "approved" (Some "alice") None None 1005 1016 in
  nth_error
    (rows (run sample_ParseCSR
             [CallRejectEnrollment "1" "bob" "changed my mind";
              CallApproveEnrollment "1" "carol";
              CallCreateEnrollment "x" "" "" "CN=x";
              CallSignCSR "CN=svc.internal" 365]
             approved_world)) 0
  = Some r.
Proof.
  apply (decided_rows_are_final sample_ParseCSR
           [CallRejectEnrollment "1" "bob" "changed my mind";
            CallApproveEnrollment "1" "carol";
            CallCreateEnrollment "x" "" "" "CN=x";
            CallSignCSR "CN=svc.internal" 365]
           approved_world 0).
  - exact (reachable_run sample_ParseCSR
             (sample_history ++ [CallApproveEnrollment "1" "alice"])
             first_world
             (reachable_initial sample_ParseCSR first_world
                (conj eq_refl eq_refl))).
  - reflexivity.
  - discriminate.
Defined.

Lemma transition_identity id v w :
  map identity_of (rows (snd (steps.transition id v w)))
  = map identity_of (rows w).
Proof.
  rewrite transition_eval. cbv zeta.
  destruct (hd None (pool w)); [reflexivity|].
  destruct (storage.select_by_id id (rows w)) as [r|]; [|reflexivity].
  destruct (Status r =? "pending")%string; [|reflexivity].
  destruct (commit_rows v r (after_send (SelectByID id) w)) as [H|[_ H]];
    rewrite H; [reflexivity|apply update_rows_identity].
Qed.

Section Bound_facts.

Variable ParseCSR : string -> result x509.CertificateRequest.

Lemma csr_names_row_identity r r' :
  identity_of r = identity_of r' ->
  csr_names_row ParseCSR r -> csr_names_row ParseCSR r'.
Proof.
  unfold identity_of, csr_names_row. intros H (csr & Hp & Hcn).
  injection H as _ Hcn' _ _ Hcsr _. exists csr. rewrite <- Hcsr, <- Hcn'.
  split; assumption.
Qed.

Lemma Forall_csr_names_identity l l' :
  map identity_of l = map identity_of l' ->
  Forall (csr_names_row ParseCSR) l -> Forall (csr_names_row ParseCSR) l'.
Proof.
  revert l'. induction l as [|x l IH]; intros [|y l'] Hmap Hall;
    try discriminate; [constructor|].
  cbn [map] in Hmap.
  assert (identity_of x = identity_of y /\ map identity_of l = map identity_of l')
    as [Hxy Hrest] by (split; congruence).
  inversion Hall as [|? ? Hx Hl]; subst. constructor.
  - apply (csr_names_row_identity x); assumption.
  - apply IH; assumption.
Qed.

Lemma exec_csr_names c w :
  Forall (csr_names_row ParseCSR) (rows w) ->
  Forall (csr_names_row ParseCSR) (rows (exec ParseCSR c w)).
Proof.
  intros Hall. destruct c; cbn [exec].
  - rewrite CreateEnrollment_eval.
    destruct (ParseCSR csrPEM) as [csr|e] eqn:Hparse; [|exact Hall]. cbv zeta.
    destruct (x509.CommonName (x509.Subject csr) =? cn)%string eqn:Hcn;
      [|exact Hall].
    destruct (hd None (pool w)); [exact Hall|].
    wsimpl. apply Forall_app. split; [exact Hall|].
    constructor; [|constructor]. exists csr. cbn.
    split; [exact Hparse|apply String.eqb_eq, Hcn].
  - unfold service.ListEnrollments. rewrite List_rows. exact Hall.
  - unfold service.GetEnrollment. rewrite GetByID_eval. exact Hall.
  - apply (Forall_csr_names_identity (rows w)); [|exact Hall].
    symmetry. apply (transition_identity id (steps.Approve approvedBy)).
  - apply (Forall_csr_names_identity (rows w)); [|exact Hall].
    symmetry. apply (transition_identity id (steps.Reject rejectedBy reason)).
  - destruct (SignCSR_untouched csrPEM validityDays w) as (-> & _). exact Hall.
  - destruct (GetCertificate_untouched serial w) as (-> & _). exact Hall.
  - destruct (RevokeCertificate_untouched serial reason w) as (-> & _). exact Hall.
Qed.

Lemma reachable_csr_names w :
  reachable ParseCSR w -> Forall (csr_names_row ParseCSR) (rows w).
Proof.
  induction 1 as [w [Hrows _] | w c _ IH].
  - rewrite Hrows. constructor.
  - apply exec_csr_names, IH.
Qed.

End Bound_facts.

(** X12. The identity check of [CreateEnrollment] holds for the life of a
    record: in every world reached by the operations, the CSR stored in a
    row parses and its subject common name is the common name stored in
    the row, whatever the status of the row. *)
Theorem stored_csr_names_the_row
  (ParseCSR : string -> result x509.CertificateRequest)
  (w : World) (r : Enrollment) :
  reachable ParseCSR w -> In r (rows w) ->
  exists csr, ParseCSR (CSR r) = Ok csr /\
              x509.CommonName (x509.Subject csr) = CommonName r.
Proof.
  intros Hreach Hin.
  apply (proj1 (List.Forall_forall _ _) (reachable_csr_names _ _ Hreach) r Hin).
Qed.

Lemma stored_csr_names_the_row_witness :
  let r := mkEnrollment "2" "api.example.com" "Web" "web@example.com"
             "CN=api.example.com" "rejected" None (Some "bob")
             (Some "duplicate request") 1012 1018 in
  exists csr, sample_ParseCSR (CSR r) = Ok csr /\
              x509.CommonName (x509.Subject csr) = CommonName r.
Proof.
  apply (stored_csr_names_the_row sample_ParseCSR rejected_world).
  - exact rejected_world_reachable.
  - right. left. reflexivity.
Defined.

(** ** package grpc *)

Lemma int32_range z : (-2147483648 <= grpc.int32 z < 2147483648)%Z.
Proof. unfold grpc.int32. pose proof (Z.mod_pos_bound (z + 2147483648) 4294967296). lia. Qed.

Lemma int32_fits z :
  (-2147483648 <= z < 2147483648)%Z -> grpc.int32 z = z.
Proof. intros H. unfold grpc.int32. rewrite Z.mod_small; lia. Qed.

Lemma int32_wraps z : grpc.int32 (z + 4294967296) = grpc.int32 z.
Proof.
  unfold grpc.int32.
  replace (z + 4294967296 + 2147483648)%Z
    with (z + 2147483648 + 1 * 4294967296)%Z by lia.
  rewrite Z.mod_add; lia.
Qed.

(** X15. [SignCSR] sends the CA one RPC, whether the CA then fails or not.  The
    request carries the CSR as given, the profile "server" and the
    validity converted to [int32]: the number of days itself when it fits
    32 bits, and otherwise that number wrapped modulo 2^32, without an
    error (4294967297 days are sent as 1 day). *)
Theorem SignCSR_request (csrPEM : string) (validityDays : Z) (w : World) :
  let w' := snd (grpc.SignCSR csrPEM validityDays w) in
  let req := capb.mkSignCSRRequest csrPEM (grpc.int32 validityDays) "server" in
  ca w' = tl (ca w) /\
  (forall rpc, In (EvCA rpc) (trace w') ->
               rpc = RpcSignCSR req \/ In (EvCA rpc) (trace w)) /\
  In (EvCA (RpcSignCSR req)) (trace w') /\
  (-2147483648 <= capb.ValidityDays req < 2147483648)%Z /\
  ((-2147483648 <= validityDays < 2147483648)%Z ->
   capb.ValidityDays req = validityDays) /\
  grpc.int32 (validityDays + 4294967296) = grpc.int32 validityDays /\
  grpc.int32 4294967297 = 1%Z.
Proof.
  cbv zeta. rewrite SignCSR_eval. cbv zeta.
  split; [destruct (next_reply w); reflexivity|].
  split.
  { intros rpc. destruct (next_reply w); wsimpl.
    - intros [H|[H|[H|H]]]; try discriminate; [injection H as <-; left; reflexivity|right; exact H].
    - intros [H|[H|H]]; try discriminate; [injection H as <-; left; reflexivity|right; exact H]. }
  split.
  { destruct (next_reply w); wsimpl; [right; left; reflexivity|left; reflexivity]. }
  cbn [capb.ValidityDays].
  split; [apply int32_range|]. split; [apply int32_fits|].
  split; [apply int32_wraps|reflexivity].
Qed.

Section NewCAClient_facts.

Variables Certificate ClientConn : Type.
Variable ReadFile : string -> result string.
Variable AppendCertsFromPEM : string -> bool.
Variable LoadX509KeyPair : string -> string -> result Certificate.

(** X16. [NewCAClient] returns a client only for a connection it has dialled
    with a timeout of thirty seconds.  When TLS is enabled the dial used
    transport credentials made of the client certificate of the
    configured key pair, the configured CA certificate as the only root
    and TLS 1.3 as the minimum version, and never the insecure option;
    when the CA certificate cannot be read or added to the pool, or the
    key pair cannot be loaded, [NewCAClient] fails with that error
    whatever the dialler would do.  Only with TLS disabled is the dial
    insecure. *)
Theorem NewCAClient_dials
  (cfg : dial.CAClientConfig) (w : World) :
  (forall Dial c w',
     dial.NewCAClient Certificate ClientConn ReadFile AppendCertsFromPEM
       LoadX509KeyPair Dial cfg w = (Ok c, w') ->
     exists opts cn,
       Dial (dial.Address cfg) opts = Ok cn /\
       dial.conn _ c = Some cn /\
       last opts = Some (dial.WithTimeout _ 30) /\
       (dial.TLSEnabled cfg = true ->
        ~ In (dial.WithInsecure _) opts /\
        exists caCert clientCert,
          ReadFile (dial.CACertPath cfg) = Ok caCert /\
          AppendCertsFromPEM caCert = true /\
          LoadX509KeyPair (dial.CertPath cfg) (dial.KeyPath cfg) = Ok clientCert /\
          opts = [dial.WithTransportCredentials _
                    (dial.mkTLSConfig _ [clientCert] [caCert] dial.VersionTLS13);
                  dial.WithTimeout _ 30]) /\
       (dial.TLSEnabled cfg = false ->
        opts = [dial.WithInsecure _; dial.WithTimeout _ 30]) /\
       trace w' = EvLog "Connected to CA service" :: trace w) /\
  (forall e,
     dial.TLSEnabled cfg = true ->
     dial.tls_options Certificate ReadFile AppendCertsFromPEM LoadX509KeyPair cfg
     = Err e ->
     forall Dial,
       dial.NewCAClient Certificate ClientConn ReadFile AppendCertsFromPEM
         LoadX509KeyPair Dial cfg w = (Err e, w)).
Proof.
  split.
  - intros Dial c w'. unfold dial.NewCAClient. mrun.
    destruct (dial.TLSEnabled cfg) eqn:Htls.
    + unfold dial.tls_options.
      destruct (ReadFile (dial.CACertPath cfg)) as [caCert|e] eqn:Hread;
        [|discriminate].
      destruct (AppendCertsFromPEM caCert) eqn:Happend; [|discriminate].
      cbn [negb].
      destruct (LoadX509KeyPair (dial.CertPath cfg) (dial.KeyPath cfg))
        as [clientCert|e] eqn:Hload; [|discriminate].
      mrun. cbn [app].
      destruct (Dial (dial.Address cfg) _) as [cn|e] eqn:Hdial; [|discriminate].
      mrun. intros H. injection H as <- <-.
      eexists _, cn. split; [exact Hdial|]. split; [reflexivity|].
      split; [reflexivity|]. split; [|split; [discriminate|reflexivity]].
      intros _. split.
      * intros [H|[H|[]]]; discriminate.
      * exists caCert, clientCert. repeat split; assumption.
    + mrun. cbn [app].
      destruct (Dial (dial.Address cfg) _) as [cn|e] eqn:Hdial; [|discriminate].
      mrun. intros H. injection H as <- <-.
      eexists _, cn. split; [exact Hdial|]. split; [reflexivity|].
      split; [reflexivity|]. split; [discriminate|]. split; reflexivity.
  - intros e Htls Hopts Dial. unfold dial.NewCAClient. mrun.
    rewrite Htls, Hopts. reflexivity.
Qed.

End NewCAClient_facts.

Lemma NewCAClient_dials_witness :
  let ReadFile := fun path : string => Ok ("PEM of " +:+ path) in
  let AppendCertsFromPEM := fun _ : string => true in
  let LoadX509KeyPair := fun cert key : string => Ok (cert +:+ "+" +:+ key) in
  let Dial := fun (address : string) (_ : list (dial.DialOption string)) =>
                Ok ("conn to " +:+ address) in
  let cfg := dial.mkCAClientConfig "ca:9090" true "ca.pem" "ra.pem" "ra.key" in
  exists opts cn,
    Dial (dial.Address cfg) opts = Ok cn /\
    dial.conn _ (dial.mkCAClient string (Some "conn to ca:9090")) = Some cn /\
    last opts = Some (dial.WithTimeout _ 30) /\
    (dial.TLSEnabled cfg = true ->
     ~ In (dial.WithInsecure _) opts /\
     exists caCert clientCert,
       ReadFile (dial.CACertPath cfg) = Ok caCert /\
       AppendCertsFromPEM caCert = true /\
       LoadX509KeyPair (dial.CertPath cfg) (dial.KeyPath cfg) = Ok clientCert /\
       opts = [dial.WithTransportCredentials _
                 (dial.mkTLSConfig _ [clientCert] [caCert] dial.VersionTLS13);
               dial.WithTimeout _ 30]) /\
    (dial.TLSEnabled cfg = false ->
     opts = [dial.WithInsecure _; dial.WithTimeout _ 30]) /\
    trace (emit (EvLog "Connected to CA service") fresh_world)
    = EvLog "Connected to CA service" :: trace fresh_world.
Proof.
  cbv zeta.
  apply (proj1 (NewCAClient_dials string string
                  (fun path : string => Ok ("PEM of " +:+ path))
                  (fun _ : string => true)
                  (fun cert key : string => Ok (cert +:+ "+" +:+ key))
                  (dial.mkCAClientConfig "ca:9090" true "ca.pem" "ra.pem" "ra.key")
                  fresh_world)
           (fun (address : string) (_ : list (dial.DialOption string)) =>
              Ok ("conn to " +:+ address))).
  reflexivity.
Defined.

(** ** package api *)

Lemma CreateEnrollment_Err_rows
  (ParseCSR : string -> result x509.CertificateRequest)
  cn org email csrPEM w e w' :
  service.CreateEnrollment ParseCSR cn org email csrPEM w = (Err e, w') ->
  rows w' = rows w.
Proof.
  rewrite CreateEnrollment_eval.
  destruct (ParseCSR csrPEM) as [csr|cause].
  2:{ intros H. injection H as _ <-. reflexivity. }
  cbv zeta.
  destruct (x509.CommonName (x509.Subject csr) =? cn)%string.
  2:{ intros H. injection H as _ <-. reflexivity. }
  destruct (hd None (pool w)); [|discriminate].
  intros H. injection H as _ <-. reflexivity.
Qed.

Section Handlers.

Variable ParseCSR : string -> result x509.CertificateRequest.

(** X17. The handler of POST /enrollments answers 201 with the record, which
    is pending, exactly when a row has been inserted.  Otherwise the table
    is as it was and the answer is 400 "Invalid request", only for a body
    that does not decode, or 500 "Failed to create enrollment" for every
    failure of the service: a CSR that does not parse and a common name
    that does not match are answered like a failure of the repository,
    and the error itself is logged, not sent. *)
Theorem CreateEnrollment_handler (r : api.Request) (w : World) :
  let resp := fst (api.CreateEnrollment ParseCSR r w) in
  let w' := snd (api.CreateEnrollment ParseCSR r w) in
  (exists enrollment,
     resp = api.json_response 201 (api.encode_Enrollment enrollment) /\
     Status enrollment = "pending" /\
     rows w' = (rows w ++ [enrollment])%list) \/
  (exists err, api.Fields r = Err err /\
     resp = api.http_Error "Invalid request" 400 /\ w' = w) \/
  (exists req err,
     api.Fields r = Ok req /\
     fst (service.CreateEnrollment ParseCSR (req "common_name")
            (req "organization") (req "email") (req "csr") w) = Err err /\
     resp = api.http_Error "Failed to create enrollment" 500 /\
     rows w' = rows w /\
     hd_error (trace w') = Some (EvLog "Failed to create enrollment")).
Proof.
  cbv zeta. unfold api.CreateEnrollment.
  destruct (api.Fields r) as [req|err].
  2:{ right. left. exists err. repeat split. }
  destruct (service.CreateEnrollment ParseCSR _ _ _ _ w) as [[e|err] w1] eqn:H.
  - left. exists e. apply CreateEnrollment_Ok in H.
    destruct H as (Hs & Hrows & _). repeat split; assumption.
  - right. right. exists req, err. split; [reflexivity|].
    pose proof (CreateEnrollment_Err_rows _ _ _ _ _ _ _ _ H) as Hrows.
    rewrite H.
    split; [reflexivity|]. split; [reflexivity|]. split; [exact Hrows|reflexivity].
Qed.


(** X19. The handlers of POST /enrollments/{id}/approve and .../reject answer
    204 exactly when the service has committed the transition, with the
    actor and the reason taken from the body.  Every other answer leaves
    the table as it was and is 400 "Invalid request" for a body that does
    not decode, or 500 for every failure of the service: a missing record
    and a record that is not pending are answered 500 like a failure of
    the repository. *)
Theorem decision_handlers (id : string) (r : api.Request) (w : World) :
  let approve := api.ApproveEnrollment id r w in
  let reject := api.RejectEnrollment id r w in
  (api.StatusCode (fst approve) = 204 <->
   exists req, api.Fields r = Ok req /\
               service.ApproveEnrollment id (req "approved_by") w
               = (Ok tt, snd approve)) /\
  (api.StatusCode (fst approve) <> 204 ->
   rows (snd approve) = rows w /\
   (fst approve = api.http_Error "Invalid request" 400 \/
    fst approve = api.http_Error "Failed to approve enrollment" 500)) /\
  (api.StatusCode (fst reject) = 204 <->
   exists req, api.Fields r = Ok req /\
               service.RejectEnrollment id (req "rejected_by") (req "reason") w
               = (Ok tt, snd reject)) /\
  (api.StatusCode (fst reject) <> 204 ->
   rows (snd reject) = rows w /\
   (fst reject = api.http_Error "Invalid request" 400 \/
    fst reject = api.http_Error "Failed to reject enrollment" 500)).
Proof.
  cbv zeta. unfold api.ApproveEnrollment, api.RejectEnrollment.
  destruct (api.Fields r) as [req|err].
  2:{ cbn. repeat split; try discriminate; try (left; reflexivity).
      - intros (req & H & _). discriminate.
      - intros (req & H & _). discriminate. }
  split; [|split; [|split]].
  - destruct (service.ApproveEnrollment id (req "approved_by") w)
      as [[[]|e] w1] eqn:H; cbn; split; try discriminate.
    + intros _. exists req. split; [reflexivity|exact H].
    + reflexivity.
    + intros (req' & Hreq & H'). injection Hreq as <-. rewrite H in H'. discriminate.
  - pose proof (transition_Err_rows id (steps.Approve (req "approved_by")) w) as Hrows.
    cbn [steps.transition] in Hrows.
    destruct (service.ApproveEnrollment id (req "approved_by") w)
      as [[[]|e] w1]; cbn; intros Hcode; [contradiction|].
    split; [apply (Hrows e); reflexivity|right; reflexivity].
  - destruct (service.RejectEnrollment id (req "rejected_by") (req "reason") w)
      as [[[]|e] w1] eqn:H; cbn; split; try discriminate.
    + intros _. exists req. split; [reflexivity|exact H].
    + reflexivity.
    + intros (req' & Hreq & H'). injection Hreq as <-. rewrite H in H'. discriminate.
  - pose proof (transition_Err_rows id
                  (steps.Reject (req "rejected_by") (req "reason")) w) as Hrows.
    cbn [steps.transition] in Hrows.
    destruct (service.RejectEnrollment id (req "rejected_by") (req "reason") w)
      as [[[]|e] w1]; cbn; intros Hcode; [contradiction|].
    split; [apply (Hrows e); reflexivity|right; reflexivity].
Qed.

End Handlers.




(** A query that breaks before its first row is answered like a table
    without a match. *)
Example ListEnrollments_of_a_broken_stream :
  fst (api.ListEnrollments
         (api.mkRequest "GET" ["api"; "v1"; "enrollments"] "10.0.0.7:51234"
            (fun _ => "") (Err (ErrOutside "EOF")))
         (set_fetches [FetchBreaks 0] two_pending))
  = api.json_response 200 api.JNull.
Proof. reflexivity. Qed.

Section Router.

Variable ParseCSR : string -> result x509.CertificateRequest.

(** The routes that write are served for POST, the others for GET. *)
Lemma match_route_method method path rt :
  api.match_route method path = Some rt ->
  (method = "GET" /\
   (rt = api.RouteHealth \/ rt = api.RouteReady \/ rt = api.RouteListEnrollments \/
    exists id, rt = api.RouteGetEnrollment id)) \/
  (method = "POST" /\
   (rt = api.RouteCreateEnrollment \/
    (exists id, rt = api.RouteApproveEnrollment id) \/
    (exists id, rt = api.RouteRejectEnrollment id))).
Proof.
  unfold api.match_route.
  destruct path as [|a [|b [|c [|d [|e [|f rest]]]]]]; try discriminate;
    repeat match goal with
    | |- context [(?x =? ?y)%string] =>
        destruct (String.eqb_spec x y); cbn [andb]
    | |- context [api.is_var ?x] => destruct (api.is_var x); cbn [andb]
    end;
    try discriminate; intros H; injection H as <-; subst; eauto 10.
Qed.

(** X21. A request whose method is not POST never changes the table, whatever
    its path, query and body, and whatever the repository answers: the
    routes that reach [Create] and [Update] are registered for POST
    only. *)
Theorem only_POST_writes (r : api.Request) (w : World) :
  api.Method r <> "POST" ->
  rows (snd (api.ServeHTTP ParseCSR r w)) = rows w /\
  id_seq (snd (api.ServeHTTP ParseCSR r w)) = id_seq w.
Proof.
  intros Hm. unfold api.ServeHTTP.
  destruct (api.match_route (api.Method r) (api.Path r)) as [rt|] eqn:Hrt;
    [|split; reflexivity].
  apply match_route_method in Hrt.
  destruct Hrt as [[_ Hrt]|[Hpost _]]; [|contradiction].
  destruct Hrt as [->|[->|[->|[id ->]]]]; cbn [api.handle].
  - split; reflexivity.
  - split; reflexivity.
  - unfold api.ListEnrollments, service.ListEnrollments. rewrite List_eval.
    cbv zeta. destruct (hd None (pool _)); [split; reflexivity|].
    destruct (read_rows _ _); split; reflexivity.
  - unfold api.GetEnrollment, service.GetEnrollment. rewrite GetByID_eval.
    destruct (hd None (pool _)); [split; reflexivity|].
    destruct (storage.select_by_id id _); split; reflexivity.
Qed.

(** X22. GET /health and GET /ready are answered 200 with their fixed bodies
    in every world: neither sends the repository or the CA anything, so
    /ready answers "ready" also while the repository refuses every
    statement. *)
Theorem probes_do_not_probe (r : api.Request) (w : World) :
  api.Method r = "GET" ->
  (api.Path r = ["health"] ->
   api.ServeHTTP ParseCSR r w
   = (Some (api.json_response 200 (api.encode_status "healthy")),
      emit (EvLog "HTTP request") w)) /\
  (api.Path r = ["ready"] ->
   api.ServeHTTP ParseCSR r w
   = (Some (api.json_response 200 (api.encode_status "ready")),
      emit (EvLog "HTTP request") w)).
Proof.
  intros Hm. unfold api.ServeHTTP. rewrite Hm.
  split; intros ->; reflexivity.
Qed.

End Router.

Lemma only_POST_writes_witness :
  let r := api.mkRequest "DELETE" ["api"; "v1"; "enrollments"; "1"] "10.0.0.7"
             (fun _ => "") (Ok (fun _ => "")) in
  rows (snd (api.ServeHTTP sample_ParseCSR r two_pending)) = rows two_pending /\
  id_seq (snd (api.ServeHTTP sample_ParseCSR r two_pending)) = id_seq two_pending.
Proof.
  apply (only_POST_writes sample_ParseCSR
           (api.mkRequest "DELETE" ["api"; "v1"; "enrollments"; "1"] "10.0.0.7"
              (fun _ => "") (Ok (fun _ => ""))) two_pending).
  discriminate.
Defined.

Lemma probes_do_not_probe_witness :
  let r := api.mkRequest "GET" ["ready"] "10.0.0.7" (fun _ => "")
             (Err (ErrOutside "EOF")) in
  let w := set_pool [Some (ErrOutside "connection refused")] two_pending in
  (api.Path r = ["health"] ->
   api.ServeHTTP sample_ParseCSR r w
   = (Some (api.json_response 200 (api.encode_status "healthy")),
      emit (EvLog "HTTP request") w)) /\
  (api.Path r = ["ready"] ->
   api.ServeHTTP sample_ParseCSR r w
   = (Some (api.json_response 200 (api.encode_status "ready")),
      emit (EvLog "HTTP request") w)).
Proof.
  apply (probes_do_not_probe sample_ParseCSR
           (api.mkRequest "GET" ["ready"] "10.0.0.7" (fun _ => "")
              (Err (ErrOutside "EOF")))
           (set_pool [Some (ErrOutside "connection refused")] two_pending)).
  reflexivity.
Defined.

(** ** What a client reads *)

Lemma member_approved_by e :
  has_member "approved_by" (api.encode_Enrollment e) <-> is_Some (ApprovedBy e).
Proof.
  unfold has_member, api.encode_Enrollment, api.omitempty, members.
  destruct (ApprovedBy e), (RejectedBy e), (RejectReason e); cbn; split.
  all: try solve [intros _; eexists; eauto 20].
  all: try solve [intros [v H]; member_cases H].
  all: intros [x Hx]; discriminate.
Qed.

Lemma member_rejected_by e :
  has_member "rejected_by" (api.encode_Enrollment e) <-> is_Some (RejectedBy e).
Proof.
  unfold has_member, api.encode_Enrollment, api.omitempty, members.
  destruct (ApprovedBy e), (RejectedBy e), (RejectReason e); cbn; split.
  all: try solve [intros _; eexists; eauto 20].
  all: try solve [intros [v H]; member_cases H].
  all: intros [x Hx]; discriminate.
Qed.

Lemma member_reject_reason e :
  has_member "reject_reason" (api.encode_Enrollment e) <-> is_Some (RejectReason e).
Proof.
  unfold has_member, api.encode_Enrollment, api.omitempty, members.
  destruct (ApprovedBy e), (RejectedBy e), (RejectReason e); cbn; split.
  all: try solve [intros _; eexists; eauto 20].
  all: try solve [intros [v H]; member_cases H].
  all: intros [x Hx]; discriminate.
Qed.

Lemma member_always key e :
  In key ["id"; "common_name"; "organization"; "email"; "csr"; "status";
          "created_at"; "updated_at"] ->
  has_member key (api.encode_Enrollment e).
Proof.
  intros Hkey. unfold has_member, api.encode_Enrollment, api.omitempty, members.
  cbn in Hkey.
  repeat (destruct Hkey as [<-|Hkey]); try contradiction;
    destruct (ApprovedBy e), (RejectedBy e), (RejectReason e); cbn;
    eexists; eauto 20.
Qed.

(** X23. The encoding of a record read from a reachable world has the member
    [approved_by] exactly when its status is [approved], and the members
    [rejected_by] and [reject_reason] exactly when its status is
    [rejected]; the eight other members are always there.  A client can
    tell the decision from the keys of the object. *)
Theorem encoded_decision_follows_status
  (ParseCSR : string -> result x509.CertificateRequest)
  (w : World) (r : Enrollment) :
  reachable ParseCSR w -> In r (rows w) ->
  (has_member "approved_by" (api.encode_Enrollment r) <-> Status r = "approved") /\
  (has_member "rejected_by" (api.encode_Enrollment r) <-> Status r = "rejected") /\
  (has_member "reject_reason" (api.encode_Enrollment r) <-> Status r = "rejected") /\
  (forall key, In key ["id"; "common_name"; "organization"; "email"; "csr";
                       "status"; "created_at"; "updated_at"] ->
               has_member key (api.encode_Enrollment r)).
Proof.
  intros Hreach Hin. apply reachable_table_ok in Hreach.
  pose proof (proj1 (List.Forall_forall _ _) Hreach r Hin) as Hrow.
  destruct Hrow as (Hs & (Ha & Hr & Hrr) & _).
  unfold non_empty in Ha, Hr, Hrr.
  assert (approved_branch (Status r) <-> Status r = "approved") as Hbranch.
  { split; [|intros ->; left; reflexivity].
    intros [H|[H|H]]; [exact H| |]; rewrite H in Hs;
      destruct Hs as [Hs|[Hs|Hs]]; discriminate. }
  rewrite Hbranch in Ha.
  split; [|split; [|split]].
  - rewrite member_approved_by. exact Ha.
  - rewrite member_rejected_by. exact Hr.
  - rewrite member_reject_reason. exact Hrr.
  - intros key. apply member_always.
Qed.

Lemma encoded_decision_follows_status_witness :
  let r := mkEnrollment "1" "svc.internal" "Ops" "ops@example.com"
             "CN=svc.internal" "approved" (Some "alice") None None 1005 1016 in
  (has_member "approved_by" (api.encode_Enrollment r) <-> Status r = "approved") /\
  (has_member "rejected_by" (api.encode_Enrollment r) <-> Status r = "rejected") /\
  (has_member "reject_reason" (api.encode_Enrollment r) <-> Status r = "rejected") /\
  (forall key, In key ["id"; "common_name"; "organization"; "email"; "csr";
                       "status"; "created_at"; "updated_at"] ->
               has_member key (api.encode_Enrollment r)).
Proof.
  apply (encoded_decision_follows_status sample_ParseCSR rejected_world).
  - exact rejected_world_reachable.
  - left. reflexivity.
Defined.

(** ** One record at a time *)



Lemma interleaved_Ok_witness :
  exists w',
    steps.interleaved "2" (steps.Reject "bob" "duplicate request")
      (steps.Approve "alice") two_pending = (Ok tt, w') /\
    option_map Status (storage.select_by_id "2" (rows w'))
    = Some (verdict_status (steps.Approve "alice")).
Proof.
  apply (interleaved_Ok "2" (steps.Reject "bob" "duplicate request")
           (steps.Approve "alice") two_pending
           (mkEnrollment "2" "api.example.com" "Web" "web@example.com"
              "CN=api.example.com" "pending" None None None 1012 1013));
    reflexivity.
Defined.
